(** * l2pixc_to_rivertile: the GDEM-to-pixel-cloud converter and the batch driver

    A shallow embedding of [scripts/l2pixc_to_rivertile.py]:
    - [Numpy]: the few array operations the converter uses (strided row
      slices, [meshgrid], boolean-mask indexing), on 2-D arrays kept as
      rows with an explicit column count;
    - [Converter]: [make_pixc_from_gdem], as a function from the contents of
      the GDEM file and of the donor pixel cloud to the pixel cloud written;
    - [Path]: the string and [os.path] functions the driver names its
      files with;
    - [Driver]: [write_annotation_file], [execute] and [main], in a state and
      exception monad over a file system, with the events of a run
      (prints, directories made, converter and [pixc_to_shp] calls, child
      processes, files written) collected in order.

    Floating-point values are IEEE binary64 ([PrimFloat.float]); integers
    are [Z]. The properties follow the definitions. *)

From Stdlib Require Import ZArith List Ascii Floats Lia.
From stdpp Require Import base list strings gmap pretty.

Open Scope Z_scope.

(** ** Python exceptions and fallible computations *)

Inductive exn : Type :=
| ValueError (msg : string)
| IndexError (msg : string)
| KeyError (key : string)
| IOError (path : string)
| CalledProcessError (returncode : Z) (cmd : string).

Inductive result (A : Type) : Type :=
| Ok (a : A)
| Raise (e : exn).
Arguments Ok {A} a.
Arguments Raise {A} e.

Definition rbind {A B} (r : result A) (k : A → result B) : result B :=
  match r with
  | Ok a => k a
  | Raise e => Raise e
  end.

Notation "'try!' x ':=' r 'in' k" := (rbind r (λ x, k))
  (at level 10, x pattern, r at level 100, k at level 200).

(** ** The numpy operations of the converter *)

Module Numpy.

(** A 2-D array: its rows, and the column count (numpy keeps the shape
    [(A, R)] even when [A = 0]). *)
Record array2 (T : Type) : Type := Array2 {
  ncols : nat;
  rows : list (list T)
}.
Arguments Array2 {T} ncols rows.
Arguments ncols {T} a.
Arguments rows {T} a.

Definition nrows {T} (a : array2 T) : nat := length (rows a).

(** [np.shape(a)] *)
Definition shape {T} (a : array2 T) : nat * nat := (nrows a, ncols a).

(** Every row has [ncols] entries: what makes the record an array. *)
Definition wf {T} (a : array2 T) : Prop :=
  Forall (λ r, length r = ncols a) (rows a).

(** Walk the list, keeping an element and then skipping [k - 1];
    [skip] is the number of elements still to drop. *)
Fixpoint stride_from {T} (k skip : nat) (l : list T) : list T :=
  match l with
  | [] => []
  | x :: l' =>
      match skip with
      | O => x :: stride_from k (Nat.pred k) l'
      | S s => stride_from k s l'
      end
  end.

(** [l[::k]]: a zero step raises, a negative one walks from the end. *)
Definition slice_step {T} (k : Z) (l : list T) : result (list T) :=
  if k =? 0 then Raise (ValueError "slice step cannot be zero")
  else if 0 <? k then Ok (stride_from (Z.to_nat k) 0 l)
  else Ok (stride_from (Z.to_nat (- k)) 0 (rev l)).

(** [a[::k, :]] *)
Definition slice_rows {T} (k : Z) (a : array2 T) : result (array2 T) :=
  try! rs := slice_step k (rows a) in
  Ok (Array2 (ncols a) rs).

(** [np.arange(n)] *)
Definition arange (n : nat) : list Z := map Z.of_nat (seq 0 n).

(** [np.meshgrid(x, y)]: two arrays of shape [(len y, len x)]. *)
Definition meshgrid {S T} (x : list S) (y : list T) : array2 S * array2 T :=
  (Array2 (length x) (map (λ _, x) y),
   Array2 (length x) (map (λ yi, map (λ _, yi) x) y)).

(** [a == v], elementwise. *)
Definition eq_scalar (a : array2 Z) (v : Z) : array2 bool :=
  Array2 (ncols a) (map (map (λ c, c =? v)) (rows a)).

(** Entries of [vals] at the positions where [mask] holds. *)
Fixpoint select {T} (mask : list bool) (vals : list T) : list T :=
  match mask, vals with
  | b :: mask', v :: vals' =>
      if b then v :: select mask' vals' else select mask' vals'
  | _, _ => []
  end.

Definition same_shape {S T} (a : array2 S) (b : array2 T) : bool :=
  Nat.eqb (nrows a) (nrows b) && Nat.eqb (ncols a) (ncols b).

(** [a[mask]] for a boolean [mask]: the selected entries in row-major
    order; a mask of another shape raises IndexError. *)
Definition bool_index {T} (a : array2 T) (mask : array2 bool)
  : result (list T) :=
  if same_shape a mask
  then Ok (select (concat (rows mask)) (concat (rows a)))
  else Raise (IndexError "boolean index did not match indexed array").

(** The number of indices [0, k, 2k, ...] below [a]: a over k, rounded up. *)
Definition ceil_div (a k : nat) : nat := ((a + k - 1) / k)%nat.

(** [d] is [a] cut down to its rows [0, k, 2k, ...]: the shape is
    [ceil(A / k)] by [R], and row [i] of [d] is row [i * k] of [a]. *)
Definition decimation_of {T} (k : nat) (a d : array2 T) : Prop :=
  shape d = (ceil_div (nrows a) k, ncols a) ∧
  ∀ i, (i < ceil_div (nrows a) k)%nat →
       ∃ r, rows d !! i = Some r ∧ rows a !! (i * k)%nat = Some r.

(** [np.zeros(n) + v] *)
Definition zeros_plus (n : nat) (v : float) : list float :=
  map (λ z, PrimFloat.add z v) (repeat 0%float n).

End Numpy.

Import Numpy.

(** Python's conversion of an int to a float: round to nearest even. *)
Definition float_of_int (z : Z) : float :=
  SF2Prim (binary_normalize prec emax z 0 false).

(** ** make_pixc_from_gdem *)

Module Converter.

(** What the converter reads from the GDEM file. *)
Record gdem : Type := Gdem {
  gdem_landtype : array2 Z;
  gdem_elevation : array2 float;
  gdem_latitude : array2 float;
  gdem_longitude : array2 float;
  gdem_cross_track : list float;
  ground_spacing : float;
  azimuth_spacing : float;
  cycle_number : Z;
  pass_number : Z
}.

(** [num_rare_looks] is first assigned the scalar factor, then an array. *)
Inductive looks : Type :=
| LooksNone
| LooksScalar (n : Z)
| LooksArray (a : list float).

(** [base_classes.PixelCloud]: the attributes this script reads or sets. *)
Record PixelCloud : Type := MkPixelCloud {
  description : string;
  nr_pixels : Z;
  nr_lines : Z;
  tile_ref : string;
  num_rare_looks : looks;
  classification : list Z;
  continuous_classification : list float;
  height : list float;
  latitude : list float;
  longitude : list float;
  pixel_area : list float;
  cross_track : list float;
  range_index : list Z;
  azimuth_index : list Z;
  illumination_time : list Z
}.

(** [PixelCloud()] *)
Definition empty_pixc : PixelCloud :=
  MkPixelCloud "" 0 0 "" LooksNone [] [] [] [] [] [] [] [] [] [].

(** Modelled from the spec: [PixelCloud.copy_attributes] of
    [cnes.sas.lib.base_classes], which is not part of this file; it copies
    the donor's global attributes into the receiver and leaves the
    per-pixel arrays alone. *)
Definition copy_attributes (pixc donor : PixelCloud) : PixelCloud :=
  MkPixelCloud (description donor) (nr_pixels donor) (nr_lines donor)
    (tile_ref donor) (num_rare_looks donor)
    (classification pixc) (continuous_classification pixc) (height pixc)
    (latitude pixc) (longitude pixc) (pixel_area pixc) (cross_track pixc)
    (range_index pixc) (azimuth_index pixc) (illumination_time pixc).

(** The landtype value the converter keeps ("assumes that water is value
    1 in gdem"). *)
Definition water_landtype : Z := 1.

(** The classification written for every kept pixel (interior water). *)
Definition interior_water : Z := 4.

(** The input the converter is written for: rectangular grids of one
    shape, and one cross-track value per column. *)
Definition wf_gdem (g : gdem) : Prop :=
  wf (gdem_landtype g) ∧ wf (gdem_elevation g) ∧
  wf (gdem_latitude g) ∧ wf (gdem_longitude g) ∧
  shape (gdem_elevation g) = shape (gdem_landtype g) ∧
  shape (gdem_latitude g) = shape (gdem_landtype g) ∧
  shape (gdem_longitude g) = shape (gdem_landtype g) ∧
  length (gdem_cross_track g) = ncols (gdem_landtype g).

(** Equality of two floats as numbers: IEEE [==], with NaN equal to
    itself. *)
Definition same_number (x y : float) : bool :=
  PrimFloat.eqb x y || (PrimFloat.is_nan x && PrimFloat.is_nan y).

(** The arrays computed before the donor pixel cloud is opened. *)
Record water_pixels : Type := WaterPixels {
  wp_A : nat;
  wp_R : nat;
  wp_classif : list Z;
  wp_elevation : list float;
  wp_lat : list float;
  wp_lon : list float;
  wp_cross_track : list float;
  wp_range_index : list Z;
  wp_azimuth_index : list Z
}.

(** The four grids after the azimuth decimation. *)
Record decimated : Type := Decimated {
  dec_landtype : array2 Z;
  dec_elevation : array2 float;
  dec_lat : array2 float;
  dec_lon : array2 float
}.

(** Lines 61 to 68: every grid is cut down to the rows
    [0, subsample_factor, 2 * subsample_factor, ...]. *)
Definition decimate (g : gdem) (subsample_factor : Z) : result decimated :=
  try! landtype := slice_rows subsample_factor (gdem_landtype g) in
  try! elevation := slice_rows subsample_factor (gdem_elevation g) in
  try! lat := slice_rows subsample_factor (gdem_latitude g) in
  try! lon := slice_rows subsample_factor (gdem_longitude g) in
  Ok (Decimated landtype elevation lat lon).

(** The decimated grids are rectangular and of one shape. *)
Definition wf_decimated (d : decimated) : Prop :=
  wf (dec_landtype d) ∧ wf (dec_elevation d) ∧
  wf (dec_lat d) ∧ wf (dec_lon d) ∧
  shape (dec_elevation d) = shape (dec_landtype d) ∧
  shape (dec_lat d) = shape (dec_landtype d) ∧
  shape (dec_lon d) = shape (dec_landtype d).

(** How many cells of the decimated grid are water. *)
Definition water_count (d : decimated) : nat :=
  count_occ Z.eq_dec (concat (rows (dec_landtype d))) water_landtype.

(** [landtype == 1] *)
Definition water_mask (d : decimated) : array2 bool :=
  eq_scalar (dec_landtype d) water_landtype.

(** Lines 76 to 86: the index grids, and the water cells of every grid. *)
Definition water_cells (g : gdem) (d : decimated) : result water_pixels :=
  let '(A, R) := shape (dec_landtype d) in
  let '(range_index, azimuth_index) := meshgrid (arange R) (arange A) in
  let '(cross_track, azimuth_index) :=
    meshgrid (gdem_cross_track g) (arange A) in
  let water := water_mask d in
  try! classif := bool_index (dec_landtype d) water in
  try! elevation := bool_index (dec_elevation d) water in
  try! lat := bool_index (dec_lat d) water in
  try! lon := bool_index (dec_lon d) water in
  try! cross_track := bool_index cross_track water in
  try! range_index := bool_index range_index water in
  try! azimuth_index := bool_index azimuth_index water in
  Ok (WaterPixels A R classif elevation lat lon cross_track
        range_index azimuth_index).

(** Lines 59 to 86. *)
Definition gdem_water_pixels (g : gdem) (subsample_factor : Z)
  : result water_pixels :=
  try! d := decimate g subsample_factor in
  water_cells g d.

(** Lines 88 to 111: the pixel cloud object, from the donor's attributes
    and the water pixels. *)
Definition build_pixc (g : gdem) (w : water_pixels) (pixc_in : PixelCloud)
    (subsample_factor : Z) : PixelCloud :=
  let pixc := copy_attributes empty_pixc pixc_in in
  {| description := "gdem water pixels repacked as a pixel cloud";
     nr_pixels := Z.of_nat (wp_R w);
     nr_lines := Z.of_nat (wp_A w);
     tile_ref := tile_ref pixc;
     num_rare_looks :=
       LooksArray (zeros_plus (length (wp_azimuth_index w))
                     (float_of_int subsample_factor));
     classification := map (λ c, c * 0 + interior_water) (wp_classif w);
     continuous_classification :=
       map (λ c, PrimFloat.add (float_of_int (c * 0)) 1%float)
         (wp_classif w);
     height := wp_elevation w;
     latitude := wp_lat w;
     longitude := wp_lon w;
     pixel_area :=
       zeros_plus (length (wp_lat w))
         (PrimFloat.mul
            (PrimFloat.mul (ground_spacing g) (azimuth_spacing g))
            (float_of_int subsample_factor));
     cross_track := wp_cross_track w;
     range_index := wp_range_index w;
     azimuth_index := wp_azimuth_index w;
     illumination_time := wp_azimuth_index w |}.

(** The converter on the contents of its two input files. *)
Definition make_pixc_from_gdem (g : gdem) (pixc_in : PixelCloud)
    (subsample_factor : Z) : result PixelCloud :=
  try! w := gdem_water_pixels g subsample_factor in
  Ok (build_pixc g w pixc_in subsample_factor).

(** The length of [num_rare_looks] when it is an array. *)
Definition looks_length (l : looks) : option nat :=
  match l with
  | LooksArray a => Some (length a)
  | _ => None
  end.

(** Every per-pixel array of [pixc] has [n] entries. *)
Definition per_pixel_lengths (pixc : PixelCloud) (n : nat) : Prop :=
  length (classification pixc) = n ∧
  length (continuous_classification pixc) = n ∧
  length (height pixc) = n ∧
  length (latitude pixc) = n ∧
  length (longitude pixc) = n ∧
  length (pixel_area pixc) = n ∧
  length (cross_track pixc) = n ∧
  length (range_index pixc) = n ∧
  length (azimuth_index pixc) = n ∧
  length (illumination_time pixc) = n ∧
  looks_length (num_rare_looks pixc) = Some n.

(** The grid of the end-to-end scenario: 4 rows of 3 cells. *)
Definition scenario_landtype : array2 Z :=
  Array2 3 [[0; 1; 0]; [1; 1; 0]; [0; 0; 1]; [1; 0; 0]].

Definition scenario_gdem : gdem :=
  {| gdem_landtype := scenario_landtype;
     gdem_elevation :=
       Array2 3 [[10; 11; 12]; [13; 14; 15]; [16; 17; 18]; [19; 20; 21]]%float;
     gdem_latitude :=
       Array2 3 [[45; 45; 45]; [45.5; 45.5; 45.5];
                 [46; 46; 46]; [46.5; 46.5; 46.5]]%float;
     gdem_longitude :=
       Array2 3 [[1; 1.5; 2]; [1; 1.5; 2]; [1; 1.5; 2]; [1; 1.5; 2]]%float;
     gdem_cross_track := [10000; 10010; 10020]%float;
     ground_spacing := 10%float;
     azimuth_spacing := 5.5%float;
     cycle_number := 1;
     pass_number := 23 |}.

Definition scenario_donor : PixelCloud :=
  MkPixelCloud "observed pixel cloud" 3500 9000 "45N-R" LooksNone
    [] [] [] [] [] [] [] [] [] [].

(** The cloud the converter makes of the scenario, with factor 2. *)
Definition scenario_pixc : PixelCloud :=
  Eval vm_compute in
    match make_pixc_from_gdem scenario_gdem scenario_donor 2 with
    | Ok pixc => pixc
    | Raise _ => empty_pixc
    end.

End Converter.

(** ** Python strings and os.path *)

Module Path.

Definition slash : Ascii.ascii := "/"%char.

(** [s.split(sep)] for a one-character separator. *)
Fixpoint split_on (sep : Ascii.ascii) (s : string) : list string :=
  match s with
  | EmptyString => [EmptyString]
  | String c s' =>
      if Ascii.eqb c sep then EmptyString :: split_on sep s'
      else match split_on sep s' with
           | h :: t => String c h :: t
           | [] => [String c EmptyString]
           end
  end.

(** [l[i]] on a list: IndexError past the end. *)
Definition item {A} (l : list A) (i : nat) : result A :=
  match l !! i with
  | Some x => Ok x
  | None => Raise (IndexError "list index out of range")
  end.

(** [s.startswith(p)] *)
Fixpoint startswith (p s : string) : bool :=
  match p, s with
  | EmptyString, _ => true
  | String a p', String b s' => Ascii.eqb a b && startswith p' s'
  | String _ _, EmptyString => false
  end.

(** [s.endswith("/")] *)
Fixpoint ends_with_slash (s : string) : bool :=
  match s with
  | EmptyString => false
  | String c EmptyString => Ascii.eqb c slash
  | String _ s' => ends_with_slash s'
  end.

(** [os.path.join(a, b)] (posixpath). *)
Definition join (a b : string) : string :=
  if startswith "/" b then b
  else if String.eqb a "" || ends_with_slash a then a +:+ b
  else a +:+ "/" +:+ b.

(** [(p[:i], p[i:])] with [i = p.rfind('/') + 1]. *)
Fixpoint cut_last_slash (p : string) : string * string :=
  match p with
  | EmptyString => (EmptyString, EmptyString)
  | String c p' =>
      let '(h, t) := cut_last_slash p' in
      if Ascii.eqb c slash then (String c h, t)
      else if String.eqb h "" then (EmptyString, String c t)
      else (String c h, t)
  end.

(** [os.path.basename(p)] *)
Definition basename (p : string) : string := (cut_last_slash p).2.

Fixpoint all_slashes (s : string) : bool :=
  match s with
  | EmptyString => true
  | String c s' => Ascii.eqb c slash && all_slashes s'
  end.

(** [s.rstrip('/')] *)
Fixpoint rstrip_slash (s : string) : string :=
  match s with
  | EmptyString => EmptyString
  | String c s' =>
      let r := rstrip_slash s' in
      if String.eqb r "" && Ascii.eqb c slash then EmptyString
      else String c r
  end.

(** [os.path.split(p)] (posixpath). *)
Definition split (p : string) : string * string :=
  let '(h, t) := cut_last_slash p in
  (if all_slashes h then h else rstrip_slash h, t).

(** [s.replace(old, new)] for a non-empty [old]: [skip] counts the
    characters of a match still to be dropped. *)
Fixpoint replace_from (old new : string) (skip : nat) (s : string) : string :=
  match s with
  | EmptyString => EmptyString
  | String c s' =>
      match skip with
      | S k => replace_from old new k s'
      | O =>
          if startswith old s
          then new +:+ replace_from old new (Nat.pred (String.length old)) s'
          else String c (replace_from old new 0 s')
      end
  end.

Definition replace (old new s : string) : string := replace_from old new 0 s.

End Path.

(** ** The driver: file system, events and the monad of [main] *)

Module Driver.

Import Path Converter.

(** What a file holds, as far as the script looks into it. *)
Inductive content : Type :=
| RdfFile (parameters : gmap string string)
| GdemFile (g : gdem)
| PixcFile (p : PixelCloud)
| TextFile (text : string)
| DataFile.

(** Files and directories, by absolute path. *)
Record fs : Type := Fs {
  files : gmap string content;
  dirs : gset string
}.

(** One [pixc_to_shp] call:
    [(in_file, out_file, lat_name, lon_name, var_names, group_name)]. *)
Record shp_call : Type := ShpCall {
  shp_in : string;
  shp_out : string;
  shp_lat : string;
  shp_lon : string;
  shp_vars : list string;
  shp_group : option string
}.

(** What a run does that can be seen from outside, in order. *)
Inductive event : Type :=
| Stdout (text : string)
| Makedirs (dir : string)
| CallMakePixc (gdem_file pixc_file out_file : string) (subsample_factor : Z)
| ToNcfile (out_name out_path : string) (pixc : PixelCloud)
| Popen (cmd : string)
| PixcToShp (call : shp_call)
| WriteFile (path text : string).

(** The collaborators outside this file: the operating system, the
    extraction program and the shapefile exporter. *)
Record system : Type := System {
  abspath : string → string;
  glob : string → fs → list string;
  environ : gmap string string;
  (** the child's output lines, its exit status, the files it leaves *)
  popen : string → fs → list string * Z * fs;
  pixc_to_shp : shp_call → fs → result fs
}.

(** State [fs], exceptions [exn], and the events emitted so far. *)
Definition M (A : Type) : Type := fs → result A * fs * list event.

Definition ret {A} (a : A) : M A := λ s, (Ok a, s, []).

Definition bind {A B} (m : M A) (k : A → M B) : M B :=
  λ s, match m s with
       | (Ok a, s1, ev1) => let '(r, s2, ev2) := k a s1 in (r, s2, ev1 ++ ev2)
       | (Raise e, s1, ev1) => (Raise e, s1, ev1)
       end.

Definition raise {A} (e : exn) : M A := λ s, (Raise e, s, []).

Definition lift {A} (r : result A) : M A := λ s, (r, s, []).

Definition emit (e : event) : M unit := λ s, (Ok tt, s, [e]).

Definition get : M fs := λ s, (Ok s, s, []).

Definition put (s : fs) : M unit := λ _, (Ok tt, s, []).

Notation "'do!' x ':=' m 'in' k" := (bind m (λ x, k))
  (at level 10, x pattern, m at level 100, k at level 200).
Notation "m ';;;' k" := (bind m (λ _, k))
  (at level 100, k at level 200, right associativity).

Definition nl : string := String (ascii_of_nat 10) EmptyString.

(** [print(s)] and [print(s, end='')] *)
Definition print (s : string) : M unit := emit (Stdout (s +:+ nl)).
Definition print_raw (s : string) : M unit := emit (Stdout s).

(** [str(x)] for a value that is a string or [None]. *)
Definition str_opt (o : option string) : string :=
  match o with Some s => s | None => "None" end.

(** A [return] inside the loop of [main] leaves [main]. *)
Inductive flow (A : Type) : Type :=
| Next (a : A)
| Return.
Arguments Next {A} a.
Arguments Return {A}.

(** Command-line arguments, as [argparse] delivers them. *)
Record arguments : Type := Arguments {
  l2pixc_annotation_file : string;
  output_dir : string;
  parameter_riverobs : string;
  riverobs_path : option string;
  nogdem : bool;
  noshp : bool;
  force : bool
}.

(** The names a job works with once its paths are resolved. *)
Record job : Type := Job {
  pixc_file : string;
  output_riverobs : string;
  output_pixcvec : string;
  river_ann_file : string;
  output_riverobs_gdem : option string;
  output_pixcvec_gdem : option string;
  gdem_pixc : option string
}.

(** A job whose descriptor is read and whose outputs are named. *)
Record resolved : Type := Resolved {
  ann_cfg : gmap string string;
  num_cycle : string;
  num_orbit : string;
  lat_tile : string;
  res_job : job
}.

(** [write_annotation_file]: the arguments of its [f.write] calls, in
    order. *)
Definition annotation_writes (pixc_file : string) (gdem_pixc : option string)
    (pixcvec_file : string) (pixcvec_file_gdem : option string)
  : list string :=
  ["pixc file = " +:+ pixc_file +:+ nl;
   "gdem pixc file = " +:+ str_opt gdem_pixc +:+ nl;
   "pixcvec file = " +:+ pixcvec_file +:+ nl]
  ++ match pixcvec_file_gdem with
     | Some p => ["pixcvec file from gdem = " +:+ p +:+ nl]
     | None => []
     end.

(** Some write starts the line of [key]: [key = ...]. *)
Definition has_line (key : string) (writes : list string) : bool :=
  existsb (startswith (key +:+ " = ")) writes.

(** What a file holds after the given writes. *)
Definition written (writes : list string) : string :=
  foldr String.append "" writes.

Section WithSystem.

Context (sys : system).

Definition isfile (p : string) : M bool :=
  do! s := get in ret (bool_decide (is_Some (files s !! abspath sys p))).

Definition isdir (p : string) : M bool :=
  do! s := get in ret (bool_decide (abspath sys p ∈ dirs s)).

(** [os.makedirs(p)]: fails when a file is in the way. *)
Definition makedirs (p : string) : M unit :=
  do! s := get in
  match files s !! abspath sys p with
  | Some _ => raise (IOError p)
  | None =>
      emit (Makedirs p) ;;;
      put (Fs (files s) ({[abspath sys p]} ∪ dirs s))
  end.

(** [open(p, 'w')], the writes and [close()]. *)
Definition write_file (p : string) (c : content) : M unit :=
  do! s := get in put (Fs (<[abspath sys p := c]> (files s)) (dirs s)).

(** [my_rdf.myRdfReader(p).parameters] *)
Definition read_rdf (p : string) : M (gmap string string) :=
  do! s := get in
  match files s !! abspath sys p with
  | Some (RdfFile parameters) => ret parameters
  | _ => raise (IOError p)
  end.

(** [nc.Dataset(p, 'r')] and the reads of lines 61 to 73. *)
Definition read_gdem (p : string) : M gdem :=
  do! s := get in
  match files s !! abspath sys p with
  | Some (GdemFile g) => ret g
  | _ => raise (IOError p)
  end.

(** [base_classes.PixelCloud.from_ncfile(p, force=True)] *)
Definition from_ncfile (p : string) : M PixelCloud :=
  do! s := get in
  match files s !! abspath sys p with
  | Some (PixcFile pixc) => ret pixc
  | _ => raise (IOError p)
  end.

(** [cfg[key]] *)
Definition lookup_key (cfg : gmap string string) (key : string) : M string :=
  match cfg !! key with
  | Some v => ret v
  | None => raise (KeyError key)
  end.

(** Lines 29 to 43. *)
Definition write_annotation_file (ann_file pixc_file : string)
    (gdem_pixc : option string) (pixcvec_file : string)
    (pixcvec_file_gdem : option string) : M unit :=
  let text :=
    written (annotation_writes pixc_file gdem_pixc pixcvec_file
               pixcvec_file_gdem) in
  emit (WriteFile ann_file text) ;;;
  write_file ann_file (TextFile text).

(** [make_pixc_from_gdem] with its file reads, prints and the write. *)
Definition make_pixc_from_gdem_file (gdem_file pixc_file out_file : string)
    (subsample_factor : Z) : M unit :=
  emit (CallMakePixc gdem_file pixc_file out_file subsample_factor) ;;;
  print (nl +:+ "### making a pixc file from gdem ##" +:+ nl) ;;;
  print ("reading gdem " +:+ gdem_file) ;;;
  do! g := read_gdem gdem_file in
  do! w := lift (gdem_water_pixels g subsample_factor) in
  print ("loading pixc attributes " +:+ pixc_file) ;;;
  do! pixc_in := from_ncfile pixc_file in
  print ("pixc_in.tile_ref " +:+ tile_ref pixc_in) ;;;
  let pixc := build_pixc g w pixc_in subsample_factor in
  let '(pth, out_name) := Path.split out_file in
  let out_path := abspath sys pth in
  print ("writting output gdem pixc file: " +:+ out_name) ;;;
  print ("to path: " +:+ out_path) ;;;
  emit (ToNcfile out_name out_path pixc) ;;;
  write_file (join out_path out_name) (PixcFile pixc).

(** [for line in p.stdout: print(line, end='')] *)
Fixpoint echo (lines : list string) : M unit :=
  match lines with
  | [] => ret tt
  | line :: rest => print_raw line ;;; echo rest
  end.

(** [execute]: echo the child's output, raise on a non-zero status. *)
Definition execute (cmd : string) : M unit :=
  emit (Popen cmd) ;;;
  do! s := get in
  let '(lines, returncode, s') := popen sys cmd s in
  put s' ;;;
  echo lines ;;;
  if returncode =? 0 then ret tt
  else raise (CalledProcessError returncode cmd).

Context (args : arguments).

(** Line 175: the descriptor's base name up to its first dot, split on
    underscores. *)
Definition name_fields (pixc_ann_file : string) : result (list string) :=
  try! stem := item (split_on "." (basename pixc_ann_file)) 0 in
  Ok (split_on "_" stem).

(** Lines 175 to 178: cycle, orbit and tile from the descriptor's name. *)
Definition tile_identity (pixc_ann_file : string)
  : result (string * string * string) :=
  try! pixc_ann_split := name_fields pixc_ann_file in
  try! num_cycle := item pixc_ann_split 2 in
  try! num_orbit := item pixc_ann_split 3 in
  try! lat_tile := item pixc_ann_split 4 in
  Ok (num_cycle, num_orbit, lat_tile).

(** The directories of the two branches. *)
Definition river_dir : string :=
  abspath sys (join (output_dir args) "pixc").
Definition river_dir_gdem : string := join (output_dir args) "gdem".

(** [num_cycle + "_" + num_orbit + "_" + lat_tile] *)
Definition tile_suffix (num_cycle num_orbit lat_tile : string) : string :=
  num_cycle +:+ "_" +:+ num_orbit +:+ "_" +:+ lat_tile.

(** The gate of lines 205 to 207 and 215 to 217. *)
Definition outputs_exist (output_riverobs output_pixcvec : string) : M bool :=
  if negb (force args) then
    do! r := isfile output_riverobs in
    if r then isfile output_pixcvec else ret false
  else ret false.

(** Lines 168 to 199: read the descriptor, make the directories, name
    the outputs. *)
Definition resolve_paths (pixc_ann_file : string) : M resolved :=
  print ("> Dealing with PixC annotation file " +:+ pixc_ann_file) ;;;
  do! ann_cfg := read_rdf (abspath sys pixc_ann_file) in
  do! (num_cycle, num_orbit, lat_tile) :=
    lift (tile_identity pixc_ann_file) in
  print ("Cycle number = " +:+ num_cycle +:+ " - Orbit number = "
         +:+ num_orbit +:+ " - Tile ref = " +:+ lat_tile) ;;;
  print "" ;;;
  do! have_dir := isdir river_dir in
  (if have_dir then ret tt else makedirs river_dir) ;;;
  (if negb (nogdem args) then
     do! have_gdem := isdir river_dir_gdem in
     if have_gdem then ret tt else makedirs river_dir_gdem
   else ret tt) ;;;
  do! l2pixc := lookup_key ann_cfg "l2pixc file" in
  let pixc_file := abspath sys l2pixc in
  let sfx := tile_suffix num_cycle num_orbit lat_tile in
  let output_riverobs := join river_dir ("rivertile_" +:+ sfx +:+ ".nc") in
  let output_pixcvec := join river_dir ("pixcvec_" +:+ sfx +:+ ".nc") in
  let river_ann_file :=
    join (output_dir args) ("river-annotation_" +:+ sfx +:+ ".rdf") in
  ret (Resolved ann_cfg num_cycle num_orbit lat_tile
         (Job pixc_file output_riverobs output_pixcvec river_ann_file
            None None None)).

(** Lines 201 to 228: stop at the gate, or name the GDEM outputs and
    make the GDEM pixel cloud. *)
Definition gate_and_gdem (r : resolved) : M (flow job) :=
  let j := res_job r in
  if nogdem args then
    do! skip := outputs_exist (output_riverobs j) (output_pixcvec j) in
    if skip then
      print "--> Output files already exist; EXIT" ;;; ret Return
    else ret (Next j)
  else
    let sfx := tile_suffix (num_cycle r) (num_orbit r) (lat_tile r) in
    let output_riverobs_gdem :=
      join river_dir_gdem ("rivertile_" +:+ sfx +:+ ".nc") in
    let output_pixcvec_gdem :=
      join river_dir_gdem ("pixcvec_" +:+ sfx +:+ ".nc") in
    do! skip := outputs_exist (output_riverobs j) (output_pixcvec j) in
    if skip then
      print "--> Output files already exist; EXIT" ;;; ret Return
    else
      let gdem_pixc :=
        join river_dir_gdem
          ("pixel_cloud_gdem" +:+ num_cycle r +:+ "-" +:+ num_orbit r
           +:+ "_" +:+ lat_tile r +:+ ".nc") in
      do! true_gdem := lookup_key (ann_cfg r) "true GDEM file" in
      print true_gdem ;;;
      make_pixc_from_gdem_file true_gdem (pixc_file j) gdem_pixc 2 ;;;
      ret (Next (Job (pixc_file j) (output_riverobs j) (output_pixcvec j)
                   (river_ann_file j) (Some output_riverobs_gdem)
                   (Some output_pixcvec_gdem) (Some gdem_pixc))).

(** Lines 168 to 228. *)
Definition prepare_job (pixc_ann_file : string) : M (flow job) :=
  do! r := resolve_paths pixc_ann_file in
  gate_and_gdem r.

(** Lines 264 to 272: the command line of the extraction program. *)
Definition extraction_command (path_to_riverobs : string) (j : job)
  : string :=
  let prog_name :=
    join (join (join path_to_riverobs "src") "bin")
      "swot_pixc2rivertile.py" in
  prog_name +:+ " " +:+ pixc_file j +:+ " " +:+ output_riverobs j
  +:+ " " +:+ output_pixcvec j +:+ " "
  +:+ abspath sys (parameter_riverobs args).

(** Lines 259 to 262: where the extraction program is installed. *)
Definition path_to_riverobs : option string :=
  match riverobs_path args with
  | Some p => Some p
  | None => environ sys !! "RIVEROBS"
  end.

(** Lines 259 to 278. *)
Definition extract (j : job) : M unit :=
  do! p :=
    match path_to_riverobs with
    | Some p => ret p
    | None => raise (KeyError "RIVEROBS")
    end in
  let cmd := extraction_command p j in
  print ("> executing: " +:+ cmd) ;;;
  execute cmd ;;;
  print "== Execution OK" ;;;
  print "".

(** One [pixc_to_shp] call. *)
Definition export_shp (c : shp_call) : M unit :=
  emit (PixcToShp c) ;;;
  do! s := get in
  do! s' := lift (pixc_to_shp sys c s) in
  put s'.

(** Lines 305 to 340. *)
Definition export_shapefiles (j : job) : M unit :=
  if negb (noshp args) then
    print "> Converting .nc files to shapefiles..." ;;;
    let pixcvec_vars :=
      ["height_vectorproc"; "node_index"; "reach_index";
       "azimuth_index"; "range_index"] in
    let node_vars :=
      ["time"; "height"; "width"; "area_total"; "node_id"; "reach_id"] in
    let reach_vars :=
      ["reach_id"; "width"; "height"; "slope"; "area_total"] in
    print ". Node shapefile" ;;;
    export_shp (ShpCall (output_riverobs j)
                  (replace ".nc" "_node.shp" (output_riverobs j))
                  "latitude" "longitude" node_vars (Some "nodes")) ;;;
    print ". Reach shapefile" ;;;
    export_shp (ShpCall (output_riverobs j)
                  (replace ".nc" "_reach.shp" (output_riverobs j))
                  "p_latitud" "p_longitud" reach_vars (Some "reaches")) ;;;
    print ". PIXCVec shapefile" ;;;
    export_shp (ShpCall (output_pixcvec j)
                  (replace ".nc" ".shp" (output_pixcvec j))
                  "latitude_vectorproc" "longitude_vectorproc"
                  pixcvec_vars None)
  else ret tt.

(** Lines 259 to 368: what follows the gate. *)
Definition finish_job (j : job) : M unit :=
  extract j ;;;
  export_shapefiles j ;;;
  write_annotation_file (river_ann_file j) (pixc_file j) (gdem_pixc j)
    (output_pixcvec j) (output_pixcvec_gdem j).

(** The body of the loop of [main]. *)
Definition process_job (pixc_ann_file : string) : M (flow unit) :=
  do! prepared := prepare_job pixc_ann_file in
  match prepared with
  | Return => ret Return
  | Next j => finish_job j ;;; ret (Next tt)
  end.

(** [for pixc_ann_file in rdf_files: ...] *)
Fixpoint for_each_job (rdf_files : list string) : M (flow unit) :=
  match rdf_files with
  | [] => ret (Next tt)
  | pixc_ann_file :: rest =>
      do! fl := process_job pixc_ann_file in
      match fl with
      | Return => ret Return
      | Next _ => for_each_job rest
      end
  end.

(** Lines 154 to 164. *)
Definition discover_jobs : M (list string) :=
  do! single := isfile (l2pixc_annotation_file args) in
  do! s := get in
  let rdf_files :=
    if single then glob sys (l2pixc_annotation_file args) s
    else glob sys (join (l2pixc_annotation_file args) "*.rdf") s in
  (if Nat.eqb (length rdf_files) 0
   then print "> NO PixC annotation file to deal with"
   else print ("> " +:+ pretty (length rdf_files)
               +:+ " PixC annotation file(s) to deal with")) ;;;
  print "" ;;;
  ret rdf_files.

(** Lines 150 to 371. *)
Definition main : M unit :=
  print "===== l2pixc_to_rivertile = BEGIN =====" ;;;
  print "" ;;;
  do! rdf_files := discover_jobs in
  do! fl := for_each_job rdf_files in
  match fl with
  | Return => ret tt
  | Next _ =>
      print "" ;;;
      print "===== l2pixc_to_rivertile = END ====="
  end.

End WithSystem.

(** *** Reasoning about runs *)

(** Every event of every run of [m], failed runs included, satisfies
    [P]. *)
Definition emits {A} (P : event → Prop) (m : M A) : Prop :=
  ∀ s, Forall P (m s).2.

(** *** A small installation to run the driver on *)

(** The extraction program of the example: it prints one line, leaves
    the files alone and exits with [returncode]. *)
Definition demo_system (returncode : Z) : system :=
  {| abspath := λ p, if startswith "/" p then p else "/work/" +:+ p;
     glob := λ pattern s,
       if bool_decide (is_Some (files s !! pattern)) then [pattern]
       else [];
     environ := {[ "RIVEROBS" := "/opt/RiverObs" ]};
     popen := λ cmd s, (["river tile done" +:+ nl], returncode, s);
     pixc_to_shp := λ c s,
       Ok (Fs (<[shp_out c := DataFile]> (files s)) (dirs s)) |}.

(** The same installation with a shapefile exporter that fails. *)
Definition demo_system_shp_fails : system :=
  {| abspath := abspath (demo_system 0);
     glob := glob (demo_system 0);
     environ := environ (demo_system 0);
     popen := popen (demo_system 0);
     pixc_to_shp := λ c s, Raise (IOError (shp_out c)) |}.

Definition demo_rdf : content :=
  RdfFile {[ "l2pixc file" := "/data/pixc_001_023_45N.nc";
             "true GDEM file" := "/data/gdem_001_023_45N.nc" ]}.

Definition demo_job : string := "/work/in/pixc_annot_001_023_45N.rdf".
Definition demo_job_next : string := "/work/in/pixc_annot_001_023_46N.rdf".

(** Two descriptors and their inputs; nothing has been produced yet. *)
Definition demo_fs : fs :=
  {| files :=
       {[ demo_job := demo_rdf;
          demo_job_next := demo_rdf;
          "/data/pixc_001_023_45N.nc" := PixcFile scenario_donor;
          "/data/gdem_001_023_45N.nc" := GdemFile scenario_gdem ]};
     dirs := ∅ |}.

(** The same, after a run that produced the outputs of tile 45N. *)
Definition demo_fs_done : fs :=
  {| files :=
       <["/out/pixc/rivertile_001_023_45N.nc" := DataFile]>
         (<["/out/pixc/pixcvec_001_023_45N.nc" := DataFile]> (files demo_fs));
     dirs := {[ "/out/pixc"; "/out/gdem" ]} |}.

Definition demo_args (nogdem noshp force : bool) : arguments :=
  {| l2pixc_annotation_file := demo_job;
     output_dir := "/out";
     parameter_riverobs := "/work/parameter_river.rdf";
     riverobs_path := None;
     nogdem := nogdem;
     noshp := noshp;
     force := force |}.

(** The job of tile 45N once its paths are resolved, with the GDEM
    branch on. *)
Definition demo_job_45N : job :=
  {| pixc_file := "/data/pixc_001_023_45N.nc";
     output_riverobs := "/out/pixc/rivertile_001_023_45N.nc";
     output_pixcvec := "/out/pixc/pixcvec_001_023_45N.nc";
     river_ann_file := "/out/river-annotation_001_023_45N.rdf";
     output_riverobs_gdem := Some "/out/gdem/rivertile_001_023_45N.nc";
     output_pixcvec_gdem := Some "/out/gdem/pixcvec_001_023_45N.nc";
     gdem_pixc := Some "/out/gdem/pixel_cloud_gdem001-023_45N.nc" |}.

(** The same job as resolved, before the gate. *)
Definition demo_resolved : resolved :=
  {| ann_cfg :=
       {[ "l2pixc file" := "/data/pixc_001_023_45N.nc";
          "true GDEM file" := "/data/gdem_001_023_45N.nc" ]};
     num_cycle := "001";
     num_orbit := "023";
     lat_tile := "45N";
     res_job :=
       {| pixc_file := "/data/pixc_001_023_45N.nc";
          output_riverobs := "/out/pixc/rivertile_001_023_45N.nc";
          output_pixcvec := "/out/pixc/pixcvec_001_023_45N.nc";
          river_ann_file := "/out/river-annotation_001_023_45N.rdf";
          output_riverobs_gdem := None;
          output_pixcvec_gdem := None;
          gdem_pixc := None |} |}.

(** What resolving its paths prints. *)
Definition demo_events_resolved : list event :=
  [Stdout ("> Dealing with PixC annotation file " +:+ demo_job +:+ nl);
   Stdout ("Cycle number = 001 - Orbit number = 023 - Tile ref = 45N" +:+ nl);
   Stdout nl].

(** The file system and the events once that job is prepared. *)
Definition demo_fs_prepared (returncode : Z) : fs :=
  (prepare_job (demo_system returncode) (demo_args false false false)
     demo_job demo_fs).1.2.

Definition demo_events_prepared (returncode : Z) : list event :=
  (prepare_job (demo_system returncode) (demo_args false false false)
     demo_job demo_fs).2.

(** The same once the job is finished. *)
Definition demo_fs_finished : fs :=
  (finish_job (demo_system 0) (demo_args false false false)
     demo_job_45N (demo_fs_prepared 0)).1.2.

Definition demo_events_finished : list event :=
  (finish_job (demo_system 0) (demo_args false false false)
     demo_job_45N (demo_fs_prepared 0)).2.

(** Events of a job that did no synthesis, extraction, export or
    annotation. *)
Definition quiet (e : event) : Prop :=
  match e with
  | Stdout _ | Makedirs _ => True
  | _ => False
  end.

(** Events that are neither a shapefile export nor a file write. *)
Definition before_export (e : event) : Prop :=
  match e with
  | PixcToShp _ | WriteFile _ _ => False
  | _ => True
  end.

(** A call of the converter is made with subsample factor 2. *)
Definition factor_two (e : event) : Prop :=
  match e with
  | CallMakePixc _ _ _ subsample_factor => subsample_factor = 2
  | _ => True
  end.

End Driver.

(** ** Cells of a grid and the positions a mask keeps *)

Module Grid.

Import Converter.

(** [a[i, j]] *)
Definition cell {T} (a : array2 T) (i j : nat) : option T :=
  match rows a !! i with
  | Some r => r !! j
  | None => None
  end.

(** The positions of a flattened mask that hold, counted from [from]. *)
Definition kept_from (from : nat) (mask : list bool) : list nat :=
  select mask (seq from (length mask)).

(** The flat positions (row-major) of the cells the mask keeps. *)
Definition kept (mask : array2 bool) : list nat :=
  kept_from 0 (concat (rows mask)).

(** [d] is [a] cut down to its rows [A-1, A-1-k, A-1-2k, ...]: what a
    negative step [-k] selects. *)
Definition reversed_decimation_of {T} (k : nat) (a d : array2 T) : Prop :=
  shape d = (ceil_div (nrows a) k, ncols a) ∧
  ∀ i, (i < ceil_div (nrows a) k)%nat →
       ∃ r, rows d !! i = Some r ∧
            rows a !! (nrows a - 1 - i * k)%nat = Some r.


(** The decimated grids of the scenario. *)
Definition scenario_decimated : decimated :=
  Eval vm_compute in
    match decimate scenario_gdem 2 with
    | Ok d => d
    | Raise _ => Decimated (Array2 0 []) (Array2 0 []) (Array2 0 [])
                   (Array2 0 [])
    end.


End Grid.

(** ** Descriptor names, exports and what a run leaves out *)

Module Names.

Import Path Converter Driver.

(** No character of [s] is [c]. *)
Fixpoint no_char (c : Ascii.ascii) (s : string) : bool :=
  match s with
  | EmptyString => true
  | String x s' => negb (Ascii.eqb x c) && no_char c s'
  end.

(** A word of a descriptor's name: no underscore, dot or slash. *)
Definition word (s : string) : bool :=
  no_char "_" s && no_char "." s && no_char "/" s.

(** The naming convention of the descriptors:
    [<dir>/<p>_<q>_<cycle>_<orbit>_<tile>.<ext>]. *)
Definition descriptor_name (dir p q cycle orbit tile ext : string) : string :=
  dir +:+ "/" +:+ p +:+ "_" +:+ q +:+ "_" +:+ cycle +:+ "_" +:+ orbit
  +:+ "_" +:+ tile +:+ "." +:+ ext.

(** [old in s] *)
Fixpoint occurs (old s : string) : bool :=
  startswith old s
  || match s with
     | EmptyString => false
     | String _ s' => occurs old s'
     end.

(** The three shapefiles of a job whose outputs are [stem_r.nc] and
    [stem_v.nc], each with the file it is made from. *)
Definition shapefiles_of (stem_r stem_v : string) : list (string * string) :=
  [(stem_r +:+ ".nc", stem_r +:+ "_node.shp");
   (stem_r +:+ ".nc", stem_r +:+ "_reach.shp");
   (stem_v +:+ ".nc", stem_v +:+ ".shp")].

(** What [print(s)] writes. *)
Definition printed (s : string) : event := Stdout (s +:+ nl).

(** Events other than a call of the converter or the write of its
    cloud. *)
Definition no_converter (e : event) : Prop :=
  match e with
  | CallMakePixc _ _ _ _ | ToNcfile _ _ _ => False
  | _ => True
  end.

(** Events other than a shapefile export. *)
Definition no_shapefile (e : event) : Prop :=
  match e with
  | PixcToShp _ => False
  | _ => True
  end.

(** Events other than an export to a file that is not in [expected]. *)
Definition exports_within (expected : list (string * string)) (e : event)
  : Prop :=
  match e with
  | PixcToShp c => (shp_in c, shp_out c) ∈ expected
  | _ => True
  end.



(** Events other than a file write. *)
Definition no_write (e : event) : Prop :=
  match e with
  | WriteFile _ _ => False
  | _ => True
  end.

(** Events other than the start of a child process. *)
Definition no_process (e : event) : Prop :=
  match e with
  | Popen _ => False
  | _ => True
  end.

(** A descriptor whose name has only three fields. *)
Definition demo_job_short : string := "/work/in/pixc_annot_001.rdf".

Definition demo_fs_short : fs :=
  {| files := {[ demo_job_short := demo_rdf ]}; dirs := ∅ |}.

(** A descriptor that names no pixel cloud, with the output directories
    in place. *)
Definition demo_cfg_no_pixc : gmap string string :=
  {[ "true GDEM file" := "/data/gdem_001_023_45N.nc" ]}.

Definition demo_fs_no_pixc : fs :=
  {| files := {[ demo_job := RdfFile demo_cfg_no_pixc ]};
     dirs := {[ "/out/pixc"; "/out/gdem" ]} |}.

(** The installation of the example without [RIVEROBS] in its
    environment. *)
Definition demo_system_bare : system :=
  {| abspath := abspath (demo_system 0);
     glob := glob (demo_system 0);
     environ := ∅;
     popen := popen (demo_system 0);
     pixc_to_shp := pixc_to_shp (demo_system 0) |}.

(** The arguments of the example, pointed at a directory that holds no
    descriptor. *)
Definition demo_args_elsewhere : arguments :=
  {| l2pixc_annotation_file := "/work/elsewhere";
     output_dir := "/out";
     parameter_riverobs := "/work/parameter_river.rdf";
     riverobs_path := None;
     nogdem := false;
     noshp := false;
     force := false |}.

End Names.

(** * Properties *)

Import Converter.

Module NumpyFacts.

Section Stride.
Context {T : Type}.
Implicit Types (l : list T) (k s i : nat).

Lemma stride_from_lookup k l : (1 ≤ k)%nat →
  ∀ s i, stride_from k s l !! i = l !! (s + i * k)%nat.
Proof.
  intros Hk. induction l as [|x l IH]; intros s i.
  - by rewrite !lookup_nil.
  - destruct s as [|s]; simpl.
    + destruct i as [|i]; simpl; [done|].
      rewrite IH.
      replace (k + i * k)%nat with (S (Nat.pred k + i * k)) by lia.
      done.
    + apply IH.
Qed.

Lemma stride_from_length k l : (1 ≤ k)%nat →
  ∀ s, length (stride_from k s l) = ceil_div (length l - s) k.
Proof.
  intros Hk. unfold ceil_div.
  induction l as [|x l IH]; intros s; simpl.
  - symmetry. apply Nat.div_small. lia.
  - destruct s as [|s]; cbn [stride_from length].
    + rewrite IH.
      destruct (le_lt_dec (Nat.pred k) (length l)) as [Hle|Hlt].
      * replace (length l - Nat.pred k + k - 1)%nat
          with (length l - Nat.pred k + (k - 1))%nat by lia.
        replace (S (length l) - 0 + k - 1)%nat
          with ((length l - Nat.pred k + (k - 1)) + 1 * k)%nat by lia.
        rewrite Nat.div_add by lia. lia.
      * replace (length l - Nat.pred k + k - 1)%nat with (k - 1)%nat by lia.
        replace (S (length l) - 0 + k - 1)%nat
          with (length l + 1 * k)%nat by lia.
        rewrite Nat.div_add by lia.
        rewrite !Nat.div_small by lia. lia.
    + rewrite IH. done.
Qed.

Lemma stride_from_Forall (P : T → Prop) k l :
  Forall P l → ∀ s, Forall P (stride_from k s l).
Proof.
  induction 1 as [|x l Hx Hl IH]; intros s; simpl; [constructor|].
  destruct s; [constructor|]; auto.
Qed.

Lemma slice_step_Forall (P : T → Prop) (k : Z) l l' :
  Forall P l → slice_step k l = Ok l' → Forall P l'.
Proof.
  unfold slice_step. intros Hl.
  destruct (k =? 0); [done|].
  destruct (0 <? k); intros [= <-]; apply stride_from_Forall; [done|].
  by apply Forall_rev.
Qed.

Lemma slice_step_ok (k : Z) l : k ≠ 0 → ∃ l', slice_step k l = Ok l'.
Proof.
  intros Hk. unfold slice_step.
  destruct (Z.eqb_spec k 0); [done|]. destruct (0 <? k); eauto.
Qed.

Lemma slice_step_length (k : Z) l l' :
  slice_step k l = Ok l' →
  length l' = ceil_div (length l) (Z.to_nat (Z.abs k)).
Proof.
  unfold slice_step.
  destruct (Z.eqb_spec k 0); [done|].
  destruct (Z.ltb_spec 0 k); intros [= <-].
  - rewrite stride_from_length by lia.
    rewrite Nat.sub_0_r. f_equal. lia.
  - rewrite stride_from_length by lia.
    rewrite length_rev, Nat.sub_0_r. f_equal. lia.
Qed.
End Stride.

Section Masks.
Context {T : Type}.

Lemma concat_length_wf {S} (a : array2 S) :
  wf a → length (concat (rows a)) = (nrows a * ncols a)%nat.
Proof.
  unfold wf, nrows. generalize (ncols a). intros n.
  induction (rows a) as [|r rs IH]; intros Hwf; simpl; [done|].
  inversion Hwf as [|? ? Hr Hrs]; subst.
  rewrite length_app, IH by done. lia.
Qed.

Lemma same_shape_length {S} (a : array2 T) (m : array2 S) :
  wf a → wf m → same_shape a m = true →
  length (concat (rows a)) = length (concat (rows m)).
Proof.
  intros Ha Hm Hs.
  rewrite (concat_length_wf a Ha), (concat_length_wf m Hm).
  unfold same_shape in Hs.
  apply andb_true_iff in Hs as [H1 H2].
  apply Nat.eqb_eq in H1. apply Nat.eqb_eq in H2.
  by rewrite H1, H2.
Qed.

Lemma select_length (l : list Z) (v : Z) : ∀ vals : list T,
  length vals = length l →
  length (select (map (λ c, c =? v) l) vals) = count_occ Z.eq_dec l v.
Proof.
  induction l as [|c l IH]; intros [|x vals] Hlen; simpl in *;
    try done.
  destruct (Z.eqb_spec c v) as [->|Hne].
  - destruct (Z.eq_dec v v); [|done]. simpl. f_equal. apply IH. lia.
  - destruct (Z.eq_dec c v); [done|]. apply IH. lia.
Qed.

Lemma eq_scalar_cells (a : array2 Z) (v : Z) :
  concat (rows (eq_scalar a v)) = map (λ c, c =? v) (concat (rows a)).
Proof. simpl. symmetry. apply concat_map. Qed.

Lemma eq_scalar_wf (a : array2 Z) (v : Z) : wf a → wf (eq_scalar a v).
Proof.
  unfold wf. simpl. intros Ha. apply Forall_map.
  eapply Forall_impl; [exact Ha|]. intros r Hr. simpl.
  by rewrite length_map.
Qed.

(** Indexing with a mask made from a grid of the same shape keeps one
    entry per cell of the grid that equals [v]. *)
Lemma bool_index_eq_scalar (a : array2 T) (l : array2 Z) (v : Z) :
  wf a → wf l → shape a = shape l →
  bool_index a (eq_scalar l v)
  = Ok (select (concat (rows (eq_scalar l v))) (concat (rows a)))
  ∧ length (select (concat (rows (eq_scalar l v))) (concat (rows a)))
    = count_occ Z.eq_dec (concat (rows l)) v.
Proof.
  intros Ha Hl Hs.
  assert (same_shape a (eq_scalar l v) = true) as Hss.
  { unfold shape in Hs. injection Hs as H1 H2.
    unfold same_shape, nrows in *. simpl. rewrite length_map.
    rewrite H1, H2, !Nat.eqb_refl. done. }
  split.
  - unfold bool_index. by rewrite Hss.
  - rewrite eq_scalar_cells. apply select_length.
    rewrite (same_shape_length a (eq_scalar l v)); auto using eq_scalar_wf.
    by rewrite eq_scalar_cells, length_map.
Qed.
End Masks.

Lemma slice_rows_wf {T} (k : Z) (a d : array2 T) :
  wf a → slice_rows k a = Ok d → wf d ∧ ncols d = ncols a.
Proof.
  unfold slice_rows, wf. intros Ha.
  destruct (slice_step k (rows a)) as [rs|e] eqn:Hs; simpl; [|done].
  intros [= <-]. simpl. split; [|done].
  eapply slice_step_Forall; eauto.
Qed.

Lemma slice_rows_nrows {T} (k : Z) (a d : array2 T) :
  slice_rows k a = Ok d →
  nrows d = ceil_div (nrows a) (Z.to_nat (Z.abs k)).
Proof.
  unfold slice_rows, nrows.
  destruct (slice_step k (rows a)) as [rs|e] eqn:Hs; simpl; [|done].
  intros [= <-]. simpl. by apply slice_step_length.
Qed.

Lemma slice_rows_ok {T} (k : Z) (a : array2 T) :
  k ≠ 0 → ∃ d, slice_rows k a = Ok d.
Proof.
  intros Hk. unfold slice_rows.
  destruct (slice_step_ok k (rows a) Hk) as [rs ->]. simpl. eauto.
Qed.

Lemma meshgrid_wf {S T} (x : list S) (y : list T) :
  wf (meshgrid x y).1 ∧ wf (meshgrid x y).2 ∧
  shape (meshgrid x y).1 = (length y, length x) ∧
  shape (meshgrid x y).2 = (length y, length x).
Proof.
  unfold meshgrid, wf, shape, nrows. simpl. rewrite !length_map.
  repeat split; apply Forall_map, Forall_forall; intros; simpl;
    by rewrite ?length_map.
Qed.

Lemma arange_length n : length (arange n) = n.
Proof. unfold arange. by rewrite length_map, length_seq. Qed.

End NumpyFacts.

Module ConverterFacts.

Import NumpyFacts.

Lemma decimate_inv g sf d :
  decimate g sf = Ok d →
  slice_rows sf (gdem_landtype g) = Ok (dec_landtype d) ∧
  slice_rows sf (gdem_elevation g) = Ok (dec_elevation d) ∧
  slice_rows sf (gdem_latitude g) = Ok (dec_lat d) ∧
  slice_rows sf (gdem_longitude g) = Ok (dec_lon d).
Proof.
  unfold decimate.
  destruct (slice_rows sf (gdem_landtype g)); simpl; [|done].
  destruct (slice_rows sf (gdem_elevation g)); simpl; [|done].
  destruct (slice_rows sf (gdem_latitude g)); simpl; [|done].
  destruct (slice_rows sf (gdem_longitude g)); simpl; [|done].
  by intros [= <-].
Qed.

Lemma decimate_ok g sf : sf ≠ 0 → ∃ d, decimate g sf = Ok d.
Proof.
  intros Hsf. unfold decimate.
  destruct (slice_rows_ok sf (gdem_landtype g) Hsf) as [? ->].
  destruct (slice_rows_ok sf (gdem_elevation g) Hsf) as [? ->].
  destruct (slice_rows_ok sf (gdem_latitude g) Hsf) as [? ->].
  destruct (slice_rows_ok sf (gdem_longitude g) Hsf) as [? ->].
  simpl. eauto.
Qed.

Lemma slice_rows_shape {S T} sf (a : array2 S) (b : array2 T) a' b' :
  shape a = shape b →
  slice_rows sf a = Ok a' → slice_rows sf b = Ok b' →
  shape a' = shape b'.
Proof.
  unfold shape. intros [= Hn Hc] Ha Hb.
  rewrite (slice_rows_nrows _ _ _ Ha), (slice_rows_nrows _ _ _ Hb), Hn.
  f_equal.
  unfold slice_rows in Ha, Hb.
  destruct (slice_step sf (rows a)); simpl in Ha; [|done].
  destruct (slice_step sf (rows b)); simpl in Hb; [|done].
  injection Ha as <-. injection Hb as <-. done.
Qed.

Lemma decimate_wf g sf d :
  wf_gdem g → decimate g sf = Ok d →
  wf_decimated d ∧ ncols (dec_landtype d) = ncols (gdem_landtype g).
Proof.
  intros (Hl & He & Hla & Hlo & Se & Sla & Slo & _) Hd.
  apply decimate_inv in Hd as (Dl & De & Dla & Dlo).
  unfold wf_decimated.
  pose proof (slice_rows_wf _ _ _ Hl Dl) as [? ?].
  pose proof (slice_rows_wf _ _ _ He De) as [? ?].
  pose proof (slice_rows_wf _ _ _ Hla Dla) as [? ?].
  pose proof (slice_rows_wf _ _ _ Hlo Dlo) as [? ?].
  repeat split; eauto using slice_rows_shape.
Qed.

(** The water cells, field by field. *)
Lemma water_cells_spec g d :
  wf_decimated d →
  length (gdem_cross_track g) = ncols (dec_landtype d) →
  ∃ w, water_cells g d = Ok w ∧
    let cells := concat (rows (water_mask d)) in
    let A := nrows (dec_landtype d) in
    let R := ncols (dec_landtype d) in
    wp_A w = A ∧ wp_R w = R ∧
    wp_classif w = select cells (concat (rows (dec_landtype d))) ∧
    wp_range_index w
      = select cells (concat (rows (meshgrid (arange R) (arange A)).1)) ∧
    wp_azimuth_index w
      = select cells
          (concat (rows (meshgrid (gdem_cross_track g) (arange A)).2)) ∧
    length (wp_classif w) = water_count d ∧
    length (wp_elevation w) = water_count d ∧
    length (wp_lat w) = water_count d ∧
    length (wp_lon w) = water_count d ∧
    length (wp_cross_track w) = water_count d ∧
    length (wp_range_index w) = water_count d ∧
    length (wp_azimuth_index w) = water_count d.
Proof.
  intros (Hl & He & Hla & Hlo & Se & Sla & Slo) Hct.
  unfold water_cells, water_mask, water_count.
  set (L := dec_landtype d) in *.
  destruct (meshgrid_wf (arange (ncols L)) (arange (nrows L)))
    as (Wr & _ & Sr & _).
  destruct (meshgrid_wf (gdem_cross_track g) (arange (nrows L)))
    as (Wc & Wa & Sc & Sa).
  rewrite !arange_length in *. rewrite Hct in *.
  cbn [shape].
  destruct (meshgrid (arange (ncols L)) (arange (nrows L)))
    as [ri ai0] eqn:M1.
  destruct (meshgrid (gdem_cross_track g) (arange (nrows L)))
    as [ct ai] eqn:M2.
  cbn [fst snd] in *.
  destruct (bool_index_eq_scalar L L water_landtype) as [-> ?]; try done.
  destruct (bool_index_eq_scalar (dec_elevation d) L water_landtype)
    as [-> ?]; try done.
  destruct (bool_index_eq_scalar (dec_lat d) L water_landtype)
    as [-> ?]; try done.
  destruct (bool_index_eq_scalar (dec_lon d) L water_landtype)
    as [-> ?]; try done.
  destruct (bool_index_eq_scalar ct L water_landtype) as [-> ?]; try done.
  destruct (bool_index_eq_scalar ri L water_landtype) as [-> ?]; try done.
  destruct (bool_index_eq_scalar ai L water_landtype) as [-> ?]; try done.
  cbn [rbind]. eexists; split; [reflexivity|]. cbn.
  repeat split; done.
Qed.

Lemma slice_rows_decimation {T} (k : Z) (a : array2 T) :
  1 ≤ k → ∃ d, slice_rows k a = Ok d ∧ decimation_of (Z.to_nat k) a d.
Proof.
  intros Hk. unfold slice_rows, slice_step.
  destruct (Z.eqb_spec k 0); [lia|].
  destruct (Z.ltb_spec 0 k); [|lia].
  cbn [rbind]. eexists; split; [reflexivity|].
  assert (1 ≤ Z.to_nat k)%nat as Hk' by lia.
  unfold decimation_of, shape, nrows. cbn [rows ncols].
  rewrite stride_from_length, Nat.sub_0_r by done.
  split; [done|]. intros i Hi.
  destruct (lookup_lt_is_Some_2 (stride_from (Z.to_nat k) 0 (rows a)) i)
    as [r Hr].
  { by rewrite stride_from_length, Nat.sub_0_r. }
  exists r. split; [done|].
  by rewrite stride_from_lookup in Hr.
Qed.

(** The converter succeeds exactly when both of its stages do. *)
Lemma make_pixc_inv g pixc_in sf pixc :
  make_pixc_from_gdem g pixc_in sf = Ok pixc →
  ∃ d w, decimate g sf = Ok d ∧ water_cells g d = Ok w ∧
         pixc = build_pixc g w pixc_in sf.
Proof.
  unfold make_pixc_from_gdem, gdem_water_pixels.
  destruct (decimate g sf) as [d|]; cbn [rbind]; [|done].
  destruct (water_cells g d) as [w|] eqn:Hw; cbn [rbind]; [|done].
  intros [= <-]. by exists d, w.
Qed.

Lemma make_pixc_ok g pixc_in sf :
  wf_gdem g → sf ≠ 0 → ∃ pixc, make_pixc_from_gdem g pixc_in sf = Ok pixc.
Proof.
  intros Hg Hsf.
  destruct (decimate_ok g sf Hsf) as [d Hd].
  destruct (decimate_wf g sf d Hg Hd) as [Hwf Hc].
  destruct (water_cells_spec g d Hwf) as (w & Hw & _).
  { destruct Hg as (_ & _ & _ & _ & _ & _ & _ & Hct). congruence. }
  unfold make_pixc_from_gdem, gdem_water_pixels.
  rewrite Hd. cbn [rbind]. rewrite Hw. cbn [rbind]. eauto.
Qed.

Lemma zeros_plus_length n v : length (zeros_plus n v) = n.
Proof. unfold zeros_plus. by rewrite length_map, repeat_length. Qed.

Lemma zeros_plus_repeat n v :
  zeros_plus n v = repeat (PrimFloat.add 0 v) n.
Proof.
  unfold zeros_plus. induction n as [|n IH]; simpl; [done|].
  by rewrite IH.
Qed.

Lemma zero_plus_same (x : float) : same_number (PrimFloat.add 0 x) x = true.
Proof.
  unfold same_number, is_nan.
  rewrite !FloatAxioms.eqb_spec, FloatAxioms.add_spec.
  change (Prim2SF 0) with (S754_zero false).
  destruct (Prim2SF x) as [s|s| |s m e]; try (destruct s; reflexivity);
    try reflexivity.
  unfold SF64add, SFadd, SFeqb, SFcompare.
  rewrite Z.compare_refl, Pos.compare_cont_refl.
  destruct s; reflexivity.
Qed.

(** Adding to zero changes nothing but the sign of a negative zero. *)
Lemma zero_plus_exact (x : float) :
  Prim2SF x ≠ S754_zero true → PrimFloat.add 0 x = x.
Proof.
  intros Hx. apply Prim2SF_inj. rewrite FloatAxioms.add_spec.
  change (Prim2SF 0) with (S754_zero false).
  destruct (Prim2SF x) as [[]|s| |s m e]; try reflexivity. done.
Qed.

Lemma bool_index_inv {T} (a : array2 T) (m : array2 bool) l :
  bool_index a m = Ok l →
  same_shape a m = true ∧ l = select (concat (rows m)) (concat (rows a)).
Proof.
  unfold bool_index. destruct (same_shape a m); [|done].
  by intros [= <-].
Qed.

(** The water cells of every grid, read off a successful run. *)
Lemma water_cells_fields g d w :
  water_cells g d = Ok w →
  let cells := concat (rows (water_mask d)) in
  let A := nrows (dec_landtype d) in
  let R := ncols (dec_landtype d) in
  length (gdem_cross_track g) = R ∧
  wp_A w = A ∧ wp_R w = R ∧
  wp_classif w = select cells (concat (rows (dec_landtype d))) ∧
  wp_elevation w = select cells (concat (rows (dec_elevation d))) ∧
  wp_lat w = select cells (concat (rows (dec_lat d))) ∧
  wp_lon w = select cells (concat (rows (dec_lon d))) ∧
  wp_cross_track w
  = select cells
      (concat (rows (meshgrid (gdem_cross_track g) (arange A)).1)) ∧
  wp_range_index w
  = select cells (concat (rows (meshgrid (arange R) (arange A)).1)) ∧
  wp_azimuth_index w
  = select cells
      (concat (rows (meshgrid (gdem_cross_track g) (arange A)).2)).
Proof.
  unfold water_cells. cbn [shape].
  set (A := nrows (dec_landtype d)). set (R := ncols (dec_landtype d)).
  destruct (meshgrid (arange R) (arange A)) as [ri ai0] eqn:M1.
  destruct (meshgrid (gdem_cross_track g) (arange A)) as [ct ai] eqn:M2.
  destruct (bool_index (dec_landtype d) (water_mask d)) as [l1|] eqn:B1;
    cbn [rbind]; [|done].
  destruct (bool_index (dec_elevation d) (water_mask d)) as [l2|] eqn:B2;
    cbn [rbind]; [|done].
  destruct (bool_index (dec_lat d) (water_mask d)) as [l3|] eqn:B3;
    cbn [rbind]; [|done].
  destruct (bool_index (dec_lon d) (water_mask d)) as [l4|] eqn:B4;
    cbn [rbind]; [|done].
  destruct (bool_index ct (water_mask d)) as [l5|] eqn:B5;
    cbn [rbind]; [|done].
  destruct (bool_index ri (water_mask d)) as [l6|] eqn:B6;
    cbn [rbind]; [|done].
  destruct (bool_index ai (water_mask d)) as [l7|] eqn:B7;
    cbn [rbind]; [|done].
  intros [= <-]. cbn.
  apply bool_index_inv in B1 as [_ ->]. apply bool_index_inv in B2 as [_ ->].
  apply bool_index_inv in B3 as [_ ->]. apply bool_index_inv in B4 as [_ ->].
  apply bool_index_inv in B5 as [S5 ->]. apply bool_index_inv in B6 as [_ ->].
  apply bool_index_inv in B7 as [_ ->].
  split; [|done].
  unfold meshgrid in M2. injection M2 as <- <-.
  unfold same_shape in S5. cbn in S5.
  apply andb_true_iff in S5 as [_ S5]. by apply Nat.eqb_eq in S5.
Qed.

(** The water cells of the landtype grid are as many as the grid has
    cells of the water class, whatever the shape of the grid. *)
Lemma water_cells_classif_length g d w :
  water_cells g d = Ok w → length (wp_classif w) = water_count d.
Proof.
  intros Hw. pose proof (water_cells_fields _ _ _ Hw) as Hf.
  cbn zeta in Hf. destruct Hf as (_ & _ & _ & -> & _).
  unfold water_mask, water_count. rewrite eq_scalar_cells.
  by apply select_length.
Qed.

Lemma repeat_lookup_lt {A} (v : A) (n i : nat) :
  (i < n)%nat → repeat v n !! i = Some v.
Proof.
  revert i. induction n as [|n IH]; intros i Hi; [lia|].
  destruct i as [|i]; [done|]. cbn. apply IH. lia.
Qed.

Lemma Forall_repeat_same {A} (v : A) (n : nat) :
  Forall (λ c, c = v) (repeat v n).
Proof. induction n as [|n IH]; by constructor. Qed.

Lemma map_constant {A B} (f : A → B) (v : B) (l : list A) :
  (∀ x, f x = v) → map f l = repeat v (length l).
Proof.
  intros Hf. induction l as [|x l IH]; [done|].
  cbn. by rewrite Hf, IH.
Qed.

End ConverterFacts.

Module ConverterClaims.

Import NumpyFacts ConverterFacts.

(** C7: for a subsample factor [k >= 1] the converter's decimated
    landtype, elevation, latitude and longitude grids have shape
    [ceil(A / k)] by [R], and row [i] of each is row [i * k] of the
    grid it comes from, for every [i] below [ceil(A / k)]. *)
Theorem decimation_correct (g : gdem) (k : Z) :
  1 ≤ k →
  ∃ d, decimate g k = Ok d ∧
    decimation_of (Z.to_nat k) (gdem_landtype g) (dec_landtype d) ∧
    decimation_of (Z.to_nat k) (gdem_elevation g) (dec_elevation d) ∧
    decimation_of (Z.to_nat k) (gdem_latitude g) (dec_lat d) ∧
    decimation_of (Z.to_nat k) (gdem_longitude g) (dec_lon d).
Proof.
  intros Hk. unfold decimate.
  destruct (slice_rows_decimation k (gdem_landtype g) Hk) as (l & -> & Hl).
  destruct (slice_rows_decimation k (gdem_elevation g) Hk) as (e & -> & He).
  destruct (slice_rows_decimation k (gdem_latitude g) Hk) as (la & -> & Hla).
  destruct (slice_rows_decimation k (gdem_longitude g) Hk) as (lo & -> & Hlo).
  cbn [rbind]. eexists; split; [reflexivity|]. by cbn.
Qed.

Lemma decimation_correct_witness :
  ∃ d, decimate scenario_gdem 2 = Ok d ∧
    decimation_of 2 (gdem_landtype scenario_gdem) (dec_landtype d) ∧
    decimation_of 2 (gdem_elevation scenario_gdem) (dec_elevation d) ∧
    decimation_of 2 (gdem_latitude scenario_gdem) (dec_lat d) ∧
    decimation_of 2 (gdem_longitude scenario_gdem) (dec_lon d).
Proof. apply (decimation_correct scenario_gdem 2). lia. Defined.


Lemma wf_scenario_gdem : wf_gdem scenario_gdem.
Proof.
  unfold wf_gdem, wf. cbn.
  repeat split; repeat constructor.
Qed.


(** C5: the converter gives one classification and one continuous
    classification per cell of the decimated grid whose landtype is 1,
    and no other: the first is all 4 (interior water), the second all
    exactly 1.0, whatever the elevations and the other landtype values
    of the grid; so pixel [i], for every [i] below the number of water
    cells, is classified 4 and 1.0. *)
Theorem classification_remap (g : gdem) (pixc_in : PixelCloud) (sf : Z)
    (pixc : PixelCloud) :
  make_pixc_from_gdem g pixc_in sf = Ok pixc →
  ∃ d, decimate g sf = Ok d ∧
    classification pixc = repeat 4 (water_count d) ∧
    continuous_classification pixc = repeat 1%float (water_count d) ∧
    (∀ i, (i < water_count d)%nat →
          classification pixc !! i = Some 4 ∧
          continuous_classification pixc !! i = Some 1%float) ∧
    Forall (λ c, c = 4) (classification pixc) ∧
    Forall (λ c, c = 1%float) (continuous_classification pixc) ∧
    length (continuous_classification pixc) = length (classification pixc).
Proof.
  intros Hp.
  destruct (make_pixc_inv _ _ _ _ Hp) as (d & w & Hd & Hw & ->).
  pose proof (water_cells_classif_length _ _ _ Hw) as Hlen.
  assert (classification (build_pixc g w pixc_in sf)
          = repeat 4 (water_count d)) as E1.
  { unfold build_pixc. cbn [classification]. rewrite <- Hlen.
    apply map_constant. intros c. by rewrite Z.mul_0_r. }
  assert (continuous_classification (build_pixc g w pixc_in sf)
          = repeat 1%float (water_count d)) as E2.
  { unfold build_pixc. cbn [continuous_classification]. rewrite <- Hlen.
    apply map_constant. intros c. by rewrite Z.mul_0_r. }
  exists d. split; [done|]. rewrite E1, E2.
  split; [done|]. split; [done|]. split.
  - intros i Hi. by rewrite !repeat_lookup_lt.
  - rewrite !repeat_length.
    split; [|split; [|done]]; apply Forall_repeat_same.
Qed.

Lemma classification_remap_witness :
  ∃ d, decimate scenario_gdem 2 = Ok d ∧
    classification scenario_pixc = repeat 4 (water_count d) ∧
    continuous_classification scenario_pixc
    = repeat 1%float (water_count d) ∧
    (∀ i, (i < water_count d)%nat →
          classification scenario_pixc !! i = Some 4 ∧
          continuous_classification scenario_pixc !! i = Some 1%float) ∧
    Forall (λ c, c = 4) (classification scenario_pixc) ∧
    Forall (λ c, c = 1%float) (continuous_classification scenario_pixc) ∧
    length (continuous_classification scenario_pixc)
    = length (classification scenario_pixc).
Proof.
  apply (classification_remap scenario_gdem scenario_donor 2).
  vm_compute. reflexivity.
Defined.

(** C6: the converter gives one pixel area per pixel it keeps; all are
    one constant, and that constant equals
    [ground_spacing * azimuth_spacing * subsample_factor]: as a number
    in every case, and bit for bit unless the product is a negative
    zero (the code adds the product to an array of zeros). On
    rectangular grids of one shape the pixels kept are the cells of the
    decimated grid whose landtype is 1, so there are as many areas. *)
Theorem pixel_area_constant (g : gdem) (pixc_in : PixelCloud) (sf : Z)
    (pixc : PixelCloud) :
  make_pixc_from_gdem g pixc_in sf = Ok pixc →
  let area :=
    PrimFloat.mul (PrimFloat.mul (ground_spacing g) (azimuth_spacing g))
      (float_of_int sf) in
  ∃ c d,
    decimate g sf = Ok d ∧
    pixel_area pixc = repeat c (length (latitude pixc)) ∧
    same_number c area = true ∧
    (Prim2SF area ≠ S754_zero true → c = area) ∧
    (wf_gdem g →
     length (latitude pixc) = water_count d ∧
     pixel_area pixc = repeat c (water_count d) ∧
     ∀ i, (i < water_count d)%nat → pixel_area pixc !! i = Some c).
Proof.
  intros Hp area.
  destruct (make_pixc_inv _ _ _ _ Hp) as (d & w & Hd & Hw & ->).
  exists (PrimFloat.add 0 area), d.
  assert (pixel_area (build_pixc g w pixc_in sf)
          = repeat (PrimFloat.add 0 area)
              (length (latitude (build_pixc g w pixc_in sf)))) as E.
  { unfold build_pixc. cbn. apply zeros_plus_repeat. }
  split; [done|]. split; [done|].
  split; [apply zero_plus_same|]. split; [apply zero_plus_exact|].
  intros Hg.
  destruct (decimate_wf g sf d Hg Hd) as [Hwf Hc].
  destruct Hg as (_ & _ & _ & _ & _ & _ & _ & Hct).
  destruct (water_cells_spec g d Hwf) as (w' & Hw' & Hspec);
    [by rewrite Hc|].
  rewrite Hw in Hw'. injection Hw' as <-. cbn zeta in Hspec.
  destruct Hspec as (_ & _ & _ & _ & _ & _ & _ & Hlat & _).
  assert (length (latitude (build_pixc g w pixc_in sf)) = water_count d)
    as Hlen by done.
  rewrite E, Hlen. split; [done|]. split; [done|].
  intros i Hi. by rewrite repeat_lookup_lt.
Qed.

Lemma pixel_area_constant_witness :
  ∃ c d,
    decimate scenario_gdem 2 = Ok d ∧
    pixel_area scenario_pixc = repeat c (length (latitude scenario_pixc)) ∧
    same_number c
      (PrimFloat.mul (PrimFloat.mul 10 5.5) (float_of_int 2)) = true ∧
    (Prim2SF (PrimFloat.mul (PrimFloat.mul 10 5.5) (float_of_int 2))
     ≠ S754_zero true →
     c = PrimFloat.mul (PrimFloat.mul 10 5.5) (float_of_int 2)) ∧
    (wf_gdem scenario_gdem →
     length (latitude scenario_pixc) = water_count d ∧
     pixel_area scenario_pixc = repeat c (water_count d) ∧
     ∀ i, (i < water_count d)%nat → pixel_area scenario_pixc !! i = Some c).
Proof.
  apply (pixel_area_constant scenario_gdem scenario_donor 2).
  vm_compute. reflexivity.
Defined.

(** C2: for a 4 by 3 grid with landtype
    [[0,1,0],[1,1,0],[0,0,1],[1,0,0]] and subsample factor 2, the
    converter keeps rows 0 and 2 (landtype [[0,1,0],[0,0,1]]), the mask
    holds exactly at (0,1) and (1,2), and the cloud has 2 pixels with
    range_index [1,2], azimuth_index [0,1] and classification [4,4]. *)
Theorem end_to_end_scenario (g : gdem) (pixc_in : PixelCloud) :
  wf_gdem g →
  gdem_landtype g = scenario_landtype →
  ∃ d pixc,
    decimate g 2 = Ok d ∧
    make_pixc_from_gdem g pixc_in 2 = Ok pixc ∧
    dec_landtype d = Array2 3 [[0; 1; 0]; [0; 0; 1]] ∧
    water_mask d = Array2 3 [[false; true; false]; [false; false; true]] ∧
    per_pixel_lengths pixc 2 ∧
    range_index pixc = [1; 2] ∧
    azimuth_index pixc = [0; 1] ∧
    classification pixc = [interior_water; interior_water].
Proof.
  intros Hg Hland.
  destruct (decimate_ok g 2) as [d Hd]; [done|].
  destruct (decimate_wf g 2 d Hg Hd) as [Hwf Hc].
  assert (dec_landtype d = Array2 3 [[0; 1; 0]; [0; 0; 1]]) as HL.
  { apply decimate_inv in Hd as [Hl _]. rewrite Hland in Hl.
    assert (slice_rows 2 scenario_landtype
            = Ok (Array2 3 [[0; 1; 0]; [0; 0; 1]])) as E by reflexivity.
    rewrite E in Hl. by injection Hl as <-. }
  assert (length (gdem_cross_track g) = 3%nat) as Hct.
  { destruct Hg as (_ & _ & _ & _ & _ & _ & _ & ->). by rewrite Hland. }
  destruct (water_cells_spec g d Hwf) as (w & Hw & Hspec).
  { by rewrite HL. }
  cbn zeta in Hspec.
  destruct Hspec as (_ & _ & Hcl & Hri & Hai & L1 & L2 & L3 & L4 & L5 & L6 & L7).
  exists d, (build_pixc g w pixc_in 2).
  assert (water_count d = 2%nat) as HN.
  { unfold water_count. by rewrite HL. }
  rewrite HN in *.
  split; [done|]. split.
  { unfold make_pixc_from_gdem, gdem_water_pixels.
    rewrite Hd. cbn [rbind]. by rewrite Hw. }
  split; [done|]. split.
  { unfold water_mask. by rewrite HL. }
  split.
  { unfold per_pixel_lengths, build_pixc. cbn.
    rewrite !length_map, !zeros_plus_length.
    repeat split; congruence. }
  unfold build_pixc. cbn [range_index azimuth_index classification].
  rewrite Hcl, Hri, Hai. unfold water_mask. rewrite HL.
  destruct (gdem_cross_track g) as [|c0 [|c1 [|c2 [|c3 ct]]]];
    try discriminate Hct.
  by repeat split.
Qed.

Lemma end_to_end_scenario_witness :
  ∃ d pixc,
    decimate scenario_gdem 2 = Ok d ∧
    make_pixc_from_gdem scenario_gdem scenario_donor 2 = Ok pixc ∧
    dec_landtype d = Array2 3 [[0; 1; 0]; [0; 0; 1]] ∧
    water_mask d = Array2 3 [[false; true; false]; [false; false; true]] ∧
    per_pixel_lengths pixc 2 ∧
    range_index pixc = [1; 2] ∧
    azimuth_index pixc = [0; 1] ∧
    classification pixc = [interior_water; interior_water].
Proof.
  apply (end_to_end_scenario scenario_gdem scenario_donor).
  - exact wf_scenario_gdem.
  - reflexivity.
Defined.

End ConverterClaims.

Module DriverFacts.

Import Path Driver.

(** *** Strings *)

Lemma append_assoc (a b c : string) : (a +:+ b) +:+ c = a +:+ (b +:+ c).
Proof.
  induction a as [|x a IH]; [done|].
  change (String x ((a +:+ b) +:+ c) = String x (a +:+ (b +:+ c))).
  by rewrite IH.
Qed.

(** A file name built from the tile suffix, spelled out. *)
Lemma append_empty (s : string) : s +:+ "" = s.
Proof.
  induction s as [|c s IH]; [done|].
  change (String c s +:+ "") with (String c (s +:+ "")). by rewrite IH.
Qed.

Lemma tile_name (pre c o t ext : string) :
  pre +:+ tile_suffix c o t +:+ ext
  = pre +:+ c +:+ "_" +:+ o +:+ "_" +:+ t +:+ ext.
Proof.
  unfold tile_suffix. by rewrite !append_assoc.
Qed.

(** *** The monad *)

Section Monad.
Context {A B : Type}.
Implicit Types (m : M A) (k : A → M B).

Lemma bind_ok m k s a s1 ev1 :
  m s = (Ok a, s1, ev1) →
  bind m k s = (let '(r, s2, ev2) := k a s1 in (r, s2, ev1 ++ ev2)).
Proof. unfold bind. by intros ->. Qed.

Lemma bind_raise m k s e s1 ev1 :
  m s = (Raise e, s1, ev1) → bind m k s = (Raise e, s1, ev1).
Proof. unfold bind. by intros ->. Qed.

Lemma bind_inv_ok m k s b s' ev :
  bind m k s = (Ok b, s', ev) →
  ∃ a s1 ev1 ev2,
    m s = (Ok a, s1, ev1) ∧ k a s1 = (Ok b, s', ev2) ∧ ev = ev1 ++ ev2.
Proof.
  unfold bind. destruct (m s) as [[[a|e] s1] ev1]; [|done].
  destruct (k a s1) as [[r s2] ev2] eqn:Hk. intros [= -> -> <-].
  by exists a, s1, ev1, ev2.
Qed.

Lemma emits_bind (P : event → Prop) m k :
  emits P m → (∀ a, emits P (k a)) → emits P (bind m k).
Proof.
  intros Hm Hk s. unfold bind. specialize (Hm s).
  destruct (m s) as [[[a|e] s1] ev1]; [|done].
  specialize (Hk a s1). destruct (k a s1) as [[r s2] ev2].
  simpl in *. by apply Forall_app.
Qed.

End Monad.

Lemma emits_ret {A} P (a : A) : emits P (ret a).
Proof. intros s. constructor. Qed.
Lemma emits_raise {A} P e : emits P (@raise A e).
Proof. intros s. constructor. Qed.
Lemma emits_lift {A} P (r : result A) : emits P (lift r).
Proof. intros s. constructor. Qed.
Lemma emits_get P : emits P get.
Proof. intros s. constructor. Qed.
Lemma emits_put P s' : emits P (put s').
Proof. intros s. constructor. Qed.
Lemma emits_emit (P : event → Prop) e : P e → emits P (emit e).
Proof. intros He s. by repeat constructor. Qed.

Create HintDb emits.
#[local] Hint Resolve emits_ret emits_raise emits_lift emits_get emits_put
  : emits.

(** Split a successful run of [bind m k] into the run of [m], named
    [Hm], and the run of [k], which stays in [H]. *)
Tactic Notation "inv_bind" hyp(H) "as" ident(a) ident(s1) ident(Hm) :=
  apply bind_inv_ok in H as (a & s1 & ? & ? & Hm & H & ->).

(** Walk through a computation all of whose events are to satisfy a
    predicate, splitting on every test on the way. *)
Ltac emits_walk :=
  repeat first
    [ apply emits_bind; [|intros ?]
    | apply emits_emit; solve [auto | exact I | reflexivity]
    | solve [auto with emits]
    | match goal with
      | |- emits _ (if ?b then _ else _) => destruct b
      | |- emits _ (match ?x with _ => _ end) => destruct x
      end ].

Section WithSystem.
Context (sys : system) (args : arguments).

Lemma emits_echo P lines :
  (∀ t, P (Stdout t)) → emits P (echo lines).
Proof.
  intros HP. induction lines as [|l ls IH]; simpl; [apply emits_ret|].
  apply emits_bind; [by apply emits_emit|]. by intros _.
Qed.

Lemma emits_prepare_job (P : event → Prop) f :
  (∀ t, P (Stdout t)) → (∀ d, P (Makedirs d)) →
  (∀ g p o, P (CallMakePixc g p o 2)) → (∀ n d c, P (ToNcfile n d c)) →
  emits P (prepare_job sys args f).
Proof.
  intros H1 H2 H3 H4.
  unfold prepare_job, resolve_paths, gate_and_gdem, outputs_exist,
    make_pixc_from_gdem_file, isdir, isfile, makedirs, read_rdf,
    read_gdem, from_ncfile, lookup_key, write_file, print.
  emits_walk.
Qed.

Lemma emits_execute (P : event → Prop) cmd :
  (∀ t, P (Stdout t)) → (∀ c, P (Popen c)) → emits P (execute sys cmd).
Proof.
  intros H1 H2. unfold execute.
  apply emits_bind; [by apply emits_emit|intros _].
  apply emits_bind; [apply emits_get|intros s].
  destruct (popen sys cmd s) as [[lines rc] s'].
  apply emits_bind; [apply emits_put|intros _].
  apply emits_bind; [by apply emits_echo|intros _].
  emits_walk.
Qed.

Lemma emits_finish_job (P : event → Prop) j :
  (∀ t, P (Stdout t)) → (∀ c, P (Popen c)) →
  (∀ c, P (PixcToShp c)) → (∀ p t, P (WriteFile p t)) →
  emits P (finish_job sys args j).
Proof.
  intros H1 H2 H3 H4.
  unfold finish_job, extract, export_shapefiles, export_shp,
    write_annotation_file, write_file, print.
  repeat first
    [ apply emits_execute; solve [auto]
    | apply emits_bind; [|intros ?]
    | apply emits_emit; solve [auto]
    | solve [auto with emits]
    | match goal with
      | |- emits _ (if ?b then _ else _) => destruct b
      | |- emits _ (match ?x with _ => _ end) => destruct x
      end ].
Qed.

Lemma emits_process_job (P : event → Prop) f :
  emits P (prepare_job sys args f) →
  (∀ j, emits P (finish_job sys args j)) →
  emits P (process_job sys args f).
Proof.
  intros H1 H2. unfold process_job.
  apply emits_bind; [done|]. intros [j|]; [|apply emits_ret].
  apply emits_bind; [apply H2|]. intros _. apply emits_ret.
Qed.

Lemma emits_for_each_job (P : event → Prop) rdf_files :
  (∀ f, emits P (process_job sys args f)) →
  emits P (for_each_job sys args rdf_files).
Proof.
  intros H. induction rdf_files as [|f rest IH]; simpl; [apply emits_ret|].
  apply emits_bind; [apply H|]. intros [[]|]; [done|apply emits_ret].
Qed.

Lemma emits_main (P : event → Prop) :
  (∀ t, P (Stdout t)) →
  (∀ f, emits P (process_job sys args f)) →
  emits P (main sys args).
Proof.
  intros H1 H2.
  unfold main, discover_jobs, isfile, print.
  repeat first
    [ apply emits_for_each_job; solve [auto]
    | apply emits_bind; [|intros ?]
    | apply emits_emit; solve [auto]
    | solve [auto with emits]
    | match goal with
      | |- emits _ (if ?b then _ else _) => destruct b
      | |- emits _ (match ?x with _ => _ end) => destruct x
      end ].
Qed.

(** *** What a prepared job is *)

Lemma tile_identity_fields f c o t :
  tile_identity f = Ok (c, o, t) ↔
  ∃ fields, name_fields f = Ok fields ∧
    fields !! 2%nat = Some c ∧ fields !! 3%nat = Some o ∧
    fields !! 4%nat = Some t.
Proof.
  unfold tile_identity, item.
  destruct (name_fields f) as [fields|e]; cbn [rbind].
  - destruct (fields !! 2%nat) as [c'|] eqn:H2; cbn [rbind].
    + destruct (fields !! 3%nat) as [o'|] eqn:H3; cbn [rbind].
      * destruct (fields !! 4%nat) as [t'|] eqn:H4; cbn [rbind].
        -- split.
           ++ intros [= -> -> ->]. by exists fields.
           ++ intros (? & [= <-] & ? & ? & ?). congruence.
        -- split; [done|]. intros (? & [= <-] & ? & ? & ?). congruence.
      * split; [done|]. intros (? & [= <-] & ? & ? & ?). congruence.
    + split; [done|]. intros (? & [= <-] & ? & ? & ?). congruence.
  - split; [done|]. by intros (? & ? & _).
Qed.

Lemma emits_resolve_paths (P : event → Prop) f :
  (∀ t, P (Stdout t)) → (∀ d, P (Makedirs d)) →
  emits P (resolve_paths sys args f).
Proof.
  intros H1 H2.
  unfold resolve_paths, isdir, makedirs, read_rdf, lookup_key, print.
  emits_walk.
Qed.

(** A descriptor whose paths are resolved: the names are those of lines
    196 to 199, and only directories were made on the way. *)
Lemma resolve_paths_inv f s r s1 ev1 :
  resolve_paths sys args f s = (Ok r, s1, ev1) →
  tile_identity f = Ok (num_cycle r, num_orbit r, lat_tile r) ∧
  files s1 = files s ∧
  ∃ l2pixc, ann_cfg r !! "l2pixc file" = Some l2pixc ∧
    let sfx := tile_suffix (num_cycle r) (num_orbit r) (lat_tile r) in
    res_job r
    = Job (abspath sys l2pixc)
        (join (river_dir sys args) ("rivertile_" +:+ sfx +:+ ".nc"))
        (join (river_dir sys args) ("pixcvec_" +:+ sfx +:+ ".nc"))
        (join (output_dir args) ("river-annotation_" +:+ sfx +:+ ".rdf"))
        None None None.
Proof.
  intros H. unfold resolve_paths in H.
  assert (∀ (b : bool) p s s' (u : unit) ev,
            (if b then ret tt else makedirs sys p) s = (Ok u, s', ev) →
            files s' = files s) as Hmk.
  { intros [] p s0 s0' u ev H0; [by injection H0 as <- <- <-|].
    unfold makedirs, bind, get in H0.
    destruct (files s0 !! abspath sys p); [done|].
    unfold emit, put in H0. cbn in H0. by injection H0 as <- <- <-. }
  inv_bind H as u1 sa Hprint.
  unfold print, emit in Hprint. injection Hprint as <- <- <-.
  inv_bind H as cfg sb Hrdf.
  unfold read_rdf, bind, get in Hrdf.
  destruct (files s !! abspath sys (abspath sys f)) as [[]|];
    try done.
  unfold ret in Hrdf. cbn in Hrdf. injection Hrdf as <- <- <-.
  inv_bind H as id sc Hid. destruct id as [[c o] t].
  unfold lift in Hid. injection Hid as Hid <- <-.
  inv_bind H as u2 sd Hp1.
  unfold print, emit in Hp1. injection Hp1 as <- <- <-.
  inv_bind H as u3 se Hp2.
  unfold print, emit in Hp2. injection Hp2 as <- <- <-.
  inv_bind H as have_dir sf Hd1.
  unfold isdir, bind, get, ret in Hd1. cbn in Hd1.
  injection Hd1 as <- <- <-.
  inv_bind H as u4 sg Hm1. apply Hmk in Hm1.
  inv_bind H as u5 sh Hm2.
  assert (files sh = files sg) as Hm2'.
  { destruct (negb (nogdem args)).
    - inv_bind Hm2 as have_gdem si Hd2.
      unfold isdir, bind, get, ret in Hd2. cbn in Hd2.
      injection Hd2 as <- <- <-. by apply Hmk in Hm2.
    - by injection Hm2 as <- <- <-. }
  inv_bind H as l2pixc sj Hkey.
  unfold lookup_key in Hkey.
  destruct (parameters !! "l2pixc file") as [v|] eqn:Hl; [|done].
  unfold ret in Hkey. injection Hkey as <- <- <-.
  unfold ret in H. injection H as <- <- <-.
  cbn [num_cycle num_orbit lat_tile ann_cfg res_job].
  split; [done|]. split; [congruence|]. by exists v.
Qed.

Lemma outputs_exist_run a b s :
  outputs_exist sys args a b s
  = (Ok (negb (force args)
         && bool_decide (is_Some (files s !! abspath sys a))
         && bool_decide (is_Some (files s !! abspath sys b))), s, []).
Proof.
  unfold outputs_exist, isfile, bind, get, ret.
  destruct (force args); cbn; [done|].
  by destruct (bool_decide (is_Some (files s !! abspath sys a))).
Qed.

(** A job that passed the gate: either the GDEM branch is off and the
    job is as resolved, or it is on, the GDEM outputs are named and the
    converter was called on the descriptor's GDEM file. *)
Lemma gate_and_gdem_inv r s1 j s' ev2 :
  gate_and_gdem sys args r s1 = (Ok (Next j), s', ev2) →
  (nogdem args = true ∧ j = res_job r ∧ ev2 = []) ∨
  (nogdem args = false ∧
   ∃ true_gdem evm,
     ann_cfg r !! "true GDEM file" = Some true_gdem ∧
     let sfx := tile_suffix (num_cycle r) (num_orbit r) (lat_tile r) in
     let gdem_pixc :=
       join (river_dir_gdem args)
         ("pixel_cloud_gdem" +:+ num_cycle r +:+ "-" +:+ num_orbit r
          +:+ "_" +:+ lat_tile r +:+ ".nc") in
     j = Job (pixc_file (res_job r)) (output_riverobs (res_job r))
           (output_pixcvec (res_job r)) (river_ann_file (res_job r))
           (Some (join (river_dir_gdem args)
                    ("rivertile_" +:+ sfx +:+ ".nc")))
           (Some (join (river_dir_gdem args)
                    ("pixcvec_" +:+ sfx +:+ ".nc")))
           (Some gdem_pixc) ∧
     ev2 = Stdout (true_gdem +:+ nl)
           :: CallMakePixc true_gdem (pixc_file (res_job r)) gdem_pixc 2
           :: evm).
Proof.
  unfold gate_and_gdem. intros H.
  destruct (nogdem args).
  - left. inv_bind H as skip sa Hskip.
    rewrite outputs_exist_run in Hskip. injection Hskip as <- <- <-.
    match type of H with (if ?b then _ else _) _ = _ => destruct b end.
    + inv_bind H as u sb Hp. by injection H.
    + by injection H as <- <- <-.
  - right. split; [done|].
    inv_bind H as skip sa Hskip.
    rewrite outputs_exist_run in Hskip. injection Hskip as <- <- <-.
    match type of H with (if ?b then _ else _) _ = _ => destruct b end.
    { inv_bind H as u sb Hp. by injection H. }
    inv_bind H as g sb Hkey. unfold lookup_key in Hkey.
    destruct (ann_cfg r !! "true GDEM file") as [v|] eqn:Hg; [|done].
    injection Hkey as <- <- <-.
    inv_bind H as u1 sc Hp. unfold print, emit in Hp.
    injection Hp as <- <- <-.
    inv_bind H as u2 sd Hmk.
    injection H as <- <- <-.
    unfold make_pixc_from_gdem_file in Hmk.
    inv_bind Hmk as u3 se Hcall. unfold emit in Hcall.
    injection Hcall as <- <- <-.
    eexists v, _. split; [done|]. split; [done|].
    cbn. by rewrite app_nil_r.
Qed.

Lemma prepare_job_inv f s j s' ev :
  prepare_job sys args f s = (Ok (Next j), s', ev) →
  ∃ r s1 ev1 ev2,
    resolve_paths sys args f s = (Ok r, s1, ev1) ∧
    gate_and_gdem sys args r s1 = (Ok (Next j), s', ev2) ∧
    ev = ev1 ++ ev2.
Proof. unfold prepare_job. apply bind_inv_ok. Qed.

(** *** Running the steps forward *)

Lemma gate_skips r s1 :
  force args = false →
  is_Some (files s1 !! abspath sys (output_riverobs (res_job r))) →
  is_Some (files s1 !! abspath sys (output_pixcvec (res_job r))) →
  gate_and_gdem sys args r s1
  = (Ok Return, s1, [Stdout ("--> Output files already exist; EXIT" +:+ nl)]).
Proof.
  intros Hf H1 H2. unfold gate_and_gdem.
  destruct (nogdem args); unfold bind; rewrite outputs_exist_run;
    rewrite Hf, !bool_decide_eq_true_2 by done; reflexivity.
Qed.


Lemma echo_run lines s : echo lines s = (Ok tt, s, map Stdout lines).
Proof.
  induction lines as [|l ls IH]; [done|].
  cbn [echo]. unfold bind, print_raw, emit. by rewrite IH.
Qed.

Lemma execute_run cmd s lines code s' :
  popen sys cmd s = (lines, code, s') →
  execute sys cmd s
  = (if code =? 0 then Ok tt else Raise (CalledProcessError code cmd),
     s', Popen cmd :: map Stdout lines).
Proof.
  intros Hp. unfold execute, bind, emit, get, put. rewrite Hp.
  rewrite echo_run. destruct (code =? 0); cbn; by rewrite app_nil_r.
Qed.

Lemma extract_fails j s p lines code s' :
  path_to_riverobs sys args = Some p →
  popen sys (extraction_command sys args p j) s = (lines, code, s') →
  code ≠ 0 →
  let cmd := extraction_command sys args p j in
  extract sys args j s
  = (Raise (CalledProcessError code cmd), s',
     [Stdout ("> executing: " +:+ cmd +:+ nl); Popen cmd] ++ map Stdout lines).
Proof.
  intros Hpath Hp Hcode cmd. unfold extract. rewrite Hpath.
  unfold bind at 1. cbn [ret]. unfold print at 1, bind at 1, emit.
  unfold bind at 1. rewrite (execute_run _ _ _ _ _ Hp).
  destruct (Z.eqb_spec code 0); done.
Qed.

Lemma finish_job_fails j s p lines code s' :
  path_to_riverobs sys args = Some p →
  popen sys (extraction_command sys args p j) s = (lines, code, s') →
  code ≠ 0 →
  let cmd := extraction_command sys args p j in
  finish_job sys args j s
  = (Raise (CalledProcessError code cmd), s',
     [Stdout ("> executing: " +:+ cmd +:+ nl); Popen cmd] ++ map Stdout lines).
Proof.
  intros Hpath Hp Hcode cmd. unfold finish_job.
  apply bind_raise. by apply extract_fails.
Qed.

Lemma write_annotation_file_run ann p g v vg s :
  let text := written (annotation_writes p g v vg) in
  write_annotation_file sys ann p g v vg s
  = (Ok tt, Fs (<[abspath sys ann := TextFile text]> (files s)) (dirs s),
     [WriteFile ann text]).
Proof. reflexivity. Qed.

Lemma written_annotation p g v vg :
  written (annotation_writes p g v vg)
  = ("pixc file = " +:+ p +:+ nl)
    +:+ ("gdem pixc file = "
         +:+ match g with Some q => q | None => "None" end +:+ nl)
    +:+ ("pixcvec file = " +:+ v +:+ nl)
    +:+ match vg with
        | Some q => "pixcvec file from gdem = " +:+ q +:+ nl
        | None => ""
        end.
Proof.
  unfold written, annotation_writes. destruct vg as [q|], g; cbn [foldr app];
    by rewrite ?append_empty.
Qed.

Lemma for_each_job_head f rest s r s' ev :
  process_job sys args f s = (r, s', ev) →
  r ≠ Ok (Next tt) →
  for_each_job sys args (f :: rest) s = (r, s', ev).
Proof.
  intros Hp Hr. cbn [for_each_job]. unfold bind. rewrite Hp.
  destruct r as [[[]|]|e]; [done| |done].
  cbn. by rewrite app_nil_r.
Qed.

(** A run of [main] whose loop does not come to its end stops there:
    with the error of the loop, or normally after a [return], and
    without the closing banner. *)
Lemma main_stops rdf_files s0 s ev0 r s' ev :
  discover_jobs sys args s0 = (Ok rdf_files, s, ev0) →
  for_each_job sys args rdf_files s = (r, s', ev) →
  r ≠ Ok (Next tt) →
  main sys args s0
  = (match r with Ok _ => Ok tt | Raise e => Raise e end, s',
     [Stdout ("===== l2pixc_to_rivertile = BEGIN =====" +:+ nl); Stdout nl]
     ++ ev0 ++ ev).
Proof.
  intros Hdisc Hloop Hr. unfold main.
  rewrite (bind_ok _ _ s0 tt s0 _ eq_refl).
  rewrite (bind_ok _ _ s0 tt s0 _ eq_refl).
  rewrite (bind_ok _ _ _ _ _ _ Hdisc).
  destruct r as [[[]|]|e]; [done| |].
  - rewrite (bind_ok _ _ _ _ _ _ Hloop). cbn. by rewrite app_nil_r.
  - by rewrite (bind_raise _ _ _ _ _ _ Hloop).
Qed.

End WithSystem.

End DriverFacts.

Module DriverClaims.

Import Path Driver DriverFacts.

Section WithSystem.
Context (sys : system) (args : arguments).

(** C4: when the extraction program exits with a non-zero status, the
    job raises [CalledProcessError] with that status and the command
    line; nothing of the job is exported to a shapefile and no
    annotation is written; the error is caught nowhere: the loop over
    the jobs and [main] raise it without touching the jobs that
    remain. *)
Theorem extraction_failure_aborts f rest s j s1 ev1 p lines code s2 :
  prepare_job sys args f s = (Ok (Next j), s1, ev1) →
  path_to_riverobs sys args = Some p →
  popen sys (extraction_command sys args p j) s1 = (lines, code, s2) →
  code ≠ 0 →
  let cmd := extraction_command sys args p j in
  let ev :=
    ev1 ++ [Stdout ("> executing: " +:+ cmd +:+ nl); Popen cmd]
        ++ map Stdout lines in
  execute sys cmd s1
  = (Raise (CalledProcessError code cmd), s2, Popen cmd :: map Stdout lines) ∧
  process_job sys args f s = (Raise (CalledProcessError code cmd), s2, ev) ∧
  for_each_job sys args (f :: rest) s
  = (Raise (CalledProcessError code cmd), s2, ev) ∧
  Forall before_export ev ∧
  ∀ s0 ev0,
    discover_jobs sys args s0 = (Ok (f :: rest), s, ev0) →
    ∃ ev', main sys args s0 = (Raise (CalledProcessError code cmd), s2, ev').
Proof.
  intros Hprep Hpath Hp Hcode cmd ev.
  assert (process_job sys args f s
          = (Raise (CalledProcessError code cmd), s2, ev)) as Hjob.
  { unfold process_job. rewrite (bind_ok _ _ _ _ _ _ Hprep).
    rewrite (bind_raise _ _ _ _ _ _
               (finish_job_fails sys args j s1 p lines code s2 Hpath Hp Hcode)).
    done. }
  assert (for_each_job sys args (f :: rest) s
          = (Raise (CalledProcessError code cmd), s2, ev)) as Hloop.
  { by apply for_each_job_head. }
  split; [|split; [done|split; [done|split]]].
  - subst cmd. rewrite (execute_run sys _ _ _ _ _ Hp).
    by destruct (Z.eqb_spec code 0).
  - subst ev. apply Forall_app. split.
    + pose proof (emits_prepare_job sys args before_export f) as He.
      specialize (He ltac:(done) ltac:(done) ltac:(done) ltac:(done) s).
      by rewrite Hprep in He.
    + repeat constructor. apply Forall_map, Forall_forall. by intros.
  - intros s0 ev0 Hdisc. eexists.
    by rewrite (main_stops sys args _ _ _ _ _ _ _ Hdisc Hloop).
Qed.

(** C1, as the code has it: with the force flag unset and both output
    files of the observed branch present, the job is skipped without a
    call of the converter or of the extraction program, the skip is
    printed and is no error, and the run ends there: the loop and
    [main] return normally without processing the jobs that remain. *)
Theorem existing_outputs_end_the_run f rest s r s1 ev1 :
  force args = false →
  resolve_paths sys args f s = (Ok r, s1, ev1) →
  is_Some (files s1 !! abspath sys (output_riverobs (res_job r))) →
  is_Some (files s1 !! abspath sys (output_pixcvec (res_job r))) →
  let ev := ev1 ++ [Stdout ("--> Output files already exist; EXIT" +:+ nl)] in
  process_job sys args f s = (Ok Return, s1, ev) ∧
  for_each_job sys args (f :: rest) s = (Ok Return, s1, ev) ∧
  Forall quiet ev ∧
  ∀ s0 ev0,
    discover_jobs sys args s0 = (Ok (f :: rest), s, ev0) →
    main sys args s0
    = (Ok tt, s1,
       [Stdout ("===== l2pixc_to_rivertile = BEGIN =====" +:+ nl);
        Stdout nl] ++ ev0 ++ ev).
Proof.
  intros Hf Hr H1 H2 ev.
  assert (process_job sys args f s = (Ok Return, s1, ev)) as Hjob.
  { assert (prepare_job sys args f s = (Ok Return, s1, ev)) as Hprep.
    { unfold prepare_job. rewrite (bind_ok _ _ _ _ _ _ Hr).
      by rewrite (gate_skips sys args r s1 Hf H1 H2). }
    unfold process_job. rewrite (bind_ok _ _ _ _ _ _ Hprep).
    cbn. by rewrite app_nil_r. }
  assert (for_each_job sys args (f :: rest) s = (Ok Return, s1, ev))
    as Hloop.
  { by apply for_each_job_head. }
  split; [done|]. split; [done|]. split.
  - subst ev. apply Forall_app. split; [|by repeat constructor].
    pose proof (emits_resolve_paths sys args quiet f) as He.
    specialize (He ltac:(done) ltac:(done) s). by rewrite Hr in He.
  - intros s0 ev0 Hdisc.
    by rewrite (main_stops sys args _ _ _ _ _ _ _ Hdisc Hloop).
Qed.

(** C10, part one: whatever the command line, the file system and the
    collaborators, every call of the converter that a run of [main]
    makes has subsample factor 2; part two: a job that passes the gate
    with the GDEM branch on has made that call, on its own pixel cloud
    and GDEM pixel cloud names. *)
Theorem subsample_factor_is_two :
  emits factor_two (main sys args) ∧
  ∀ f s j s' ev,
    prepare_job sys args f s = (Ok (Next j), s', ev) →
    nogdem args = false →
    ∃ true_gdem out_file,
      gdem_pixc j = Some out_file ∧
      In (CallMakePixc true_gdem (pixc_file j) out_file 2) ev.
Proof.
  split.
  - apply emits_main; [done|]. intros f.
    apply emits_process_job.
    + by apply emits_prepare_job.
    + intros j. by apply emits_finish_job.
  - intros f s j s' ev Hprep Hn.
    apply prepare_job_inv in Hprep as (r & s1 & ev1 & ev2 & _ & Hg & ->).
    apply gate_and_gdem_inv in Hg as [[Hn' _]|(_ & g & evm & _ & Hj & ->)];
      [congruence|].
    cbn zeta in Hj. subst j. cbn [gdem_pixc pixc_file].
    eexists g, _. split; [done|].
    apply in_or_app. right. right. by left.
Qed.

(** C8: when the descriptor's base name, cut at its first dot and split
    on underscores, has the cycle at position 2, the orbit at position 3
    and the tile at position 4, a prepared job has the outputs
    [rivertile_<cycle>_<orbit>_<tile>.nc] and
    [pixcvec_<cycle>_<orbit>_<tile>.nc] in the directory of the observed
    branch and, with the GDEM branch on, the GDEM pixel cloud
    [pixel_cloud_gdem<cycle>-<orbit>_<tile>.nc] in the directory of the
    GDEM branch. *)
Theorem output_names_follow_tile f fields c o t s j s' ev :
  name_fields f = Ok fields →
  fields !! 2%nat = Some c →
  fields !! 3%nat = Some o →
  fields !! 4%nat = Some t →
  prepare_job sys args f s = (Ok (Next j), s', ev) →
  output_riverobs j
  = join (river_dir sys args)
      ("rivertile_" +:+ c +:+ "_" +:+ o +:+ "_" +:+ t +:+ ".nc") ∧
  output_pixcvec j
  = join (river_dir sys args)
      ("pixcvec_" +:+ c +:+ "_" +:+ o +:+ "_" +:+ t +:+ ".nc") ∧
  river_dir sys args = abspath sys (join (output_dir args) "pixc") ∧
  (nogdem args = false →
   gdem_pixc j
   = Some (join (join (output_dir args) "gdem")
             ("pixel_cloud_gdem" +:+ c +:+ "-" +:+ o +:+ "_" +:+ t
              +:+ ".nc"))) ∧
  (nogdem args = true → gdem_pixc j = None).
Proof.
  intros Hfields H2 H3 H4 Hprep.
  apply prepare_job_inv in Hprep as (r & s1 & ev1 & ev2 & Hr & Hg & ->).
  apply resolve_paths_inv in Hr as (Hid & _ & l2pixc & _ & Hjob).
  apply tile_identity_fields in Hid as (fields' & Hf' & H2' & H3' & H4').
  rewrite Hfields in Hf'. injection Hf' as <-.
  rewrite H2 in H2'. rewrite H3 in H3'. rewrite H4 in H4'.
  injection H2' as H2'. injection H3' as H3'. injection H4' as H4'.
  cbn zeta in Hjob. rewrite <- H2', <- H3', <- H4' in *.
  apply gate_and_gdem_inv in Hg
    as [(Hn & -> & _)|(Hn & g & evm & _ & Hj & _)].
  - rewrite Hjob. cbn [output_riverobs output_pixcvec gdem_pixc].
    rewrite !tile_name.
    split; [done|]. split; [done|]. split; [done|].
    split; intros Hn'; [congruence|done].
  - cbn zeta in Hj. subst j. rewrite Hjob.
    cbn [output_riverobs output_pixcvec gdem_pixc].
    rewrite !tile_name.
    split; [done|]. split; [done|]. split; [done|].
    split; intros Hn'; [|congruence].
    by rewrite <- H2', <- H3', <- H4'.
Qed.

(** C9, as the code has it: a job whose extraction and whose shapefile
    exports, when they are on, succeed ends by writing its annotation
    file, whose text is exactly the lines [pixc file = ...],
    [gdem pixc file = ...] and [pixcvec file = ...] in that order (the
    second one also when there is no GDEM pixel cloud: its value is then
    [None]), followed by the line [pixcvec file from gdem = ...] if and
    only if the GDEM pixcvec path is not [None]; with [--noshp] the
    extraction alone decides. *)
Theorem annotation_file_lines j s s1 ev1 s2 ev2 :
  extract sys args j s = (Ok tt, s1, ev1) →
  export_shapefiles sys args j s1 = (Ok tt, s2, ev2) →
  let line1 := "pixc file = " +:+ pixc_file j +:+ nl in
  let line2 :=
    "gdem pixc file = "
    +:+ match gdem_pixc j with Some p => p | None => "None" end +:+ nl in
  let line3 := "pixcvec file = " +:+ output_pixcvec j +:+ nl in
  let line4 :=
    match output_pixcvec_gdem j with
    | Some p => "pixcvec file from gdem = " +:+ p +:+ nl
    | None => ""
    end in
  let text := line1 +:+ line2 +:+ line3 +:+ line4 in
  let writes :=
    annotation_writes (pixc_file j) (gdem_pixc j) (output_pixcvec j)
      (output_pixcvec_gdem j) in
  finish_job sys args j s
  = (Ok tt,
     Fs (<[abspath sys (river_ann_file j) := TextFile text]> (files s2))
       (dirs s2),
     ev1 ++ ev2 ++ [WriteFile (river_ann_file j) text]) ∧
  writes
  = match output_pixcvec_gdem j with
    | Some p =>
        [line1; line2; line3; "pixcvec file from gdem = " +:+ p +:+ nl]
    | None => [line1; line2; line3]
    end ∧
  (has_line "pixcvec file from gdem" writes = true
   ↔ output_pixcvec_gdem j ≠ None) ∧
  (gdem_pixc j = None →
   writes !! 1%nat = Some ("gdem pixc file = None" +:+ nl)) ∧
  (noshp args = true → s2 = s1 ∧ ev2 = []).
Proof.
  intros Hextract Hexport line1 line2 line3 line4 text writes.
  split.
  { unfold finish_job.
    rewrite (bind_ok _ _ _ _ _ _ Hextract), (bind_ok _ _ _ _ _ _ Hexport).
    rewrite write_annotation_file_run, written_annotation. done. }
  subst writes line1 line2 line3. unfold annotation_writes.
  split; [|split; [|split]].
  - by destruct (output_pixcvec_gdem j).
  - destruct (output_pixcvec_gdem j) as [p|]; vm_compute; split; congruence.
  - by intros ->.
  - intros Hn. unfold export_shapefiles in Hexport. rewrite Hn in Hexport.
    by injection Hexport as <- <-.
Qed.

End WithSystem.

Lemma extraction_failure_aborts_witness :
  let sys := demo_system 2 in
  let args := demo_args false false false in
  let cmd := extraction_command sys args "/opt/RiverObs" demo_job_45N in
  let ev :=
    demo_events_prepared 2
    ++ [Stdout ("> executing: " +:+ cmd +:+ nl); Popen cmd]
    ++ map Stdout ["river tile done" +:+ nl] in
  execute sys cmd (demo_fs_prepared 2)
  = (Raise (CalledProcessError 2 cmd), demo_fs_prepared 2,
     Popen cmd :: map Stdout ["river tile done" +:+ nl]) ∧
  process_job sys args demo_job demo_fs
  = (Raise (CalledProcessError 2 cmd), demo_fs_prepared 2, ev) ∧
  for_each_job sys args [demo_job; demo_job_next] demo_fs
  = (Raise (CalledProcessError 2 cmd), demo_fs_prepared 2, ev) ∧
  Forall before_export ev ∧
  ∀ s0 ev0,
    discover_jobs sys args s0 = (Ok [demo_job; demo_job_next], demo_fs, ev0) →
    ∃ ev', main sys args s0
           = (Raise (CalledProcessError 2 cmd), demo_fs_prepared 2, ev').
Proof.
  apply (extraction_failure_aborts (demo_system 2)
           (demo_args false false false) demo_job [demo_job_next] demo_fs
           demo_job_45N (demo_fs_prepared 2) (demo_events_prepared 2)
           "/opt/RiverObs" ["river tile done" +:+ nl] 2 (demo_fs_prepared 2)).
  - vm_compute. reflexivity.
  - reflexivity.
  - reflexivity.
  - discriminate.
Defined.

Lemma existing_outputs_end_the_run_witness :
  let sys := demo_system 0 in
  let args := demo_args false false false in
  let ev :=
    demo_events_resolved
    ++ [Stdout ("--> Output files already exist; EXIT" +:+ nl)] in
  process_job sys args demo_job demo_fs_done = (Ok Return, demo_fs_done, ev) ∧
  for_each_job sys args [demo_job; demo_job_next] demo_fs_done
  = (Ok Return, demo_fs_done, ev) ∧
  Forall quiet ev ∧
  ∀ s0 ev0,
    discover_jobs sys args s0
    = (Ok [demo_job; demo_job_next], demo_fs_done, ev0) →
    main sys args s0
    = (Ok tt, demo_fs_done,
       [Stdout ("===== l2pixc_to_rivertile = BEGIN =====" +:+ nl);
        Stdout nl] ++ ev0 ++ ev).
Proof.
  apply (existing_outputs_end_the_run (demo_system 0)
           (demo_args false false false) demo_job [demo_job_next]
           demo_fs_done demo_resolved demo_fs_done demo_events_resolved).
  - reflexivity.
  - vm_compute. reflexivity.
  - eexists. vm_compute. reflexivity.
  - eexists. vm_compute. reflexivity.
Defined.

(** C1 as the claim states it fails: with two discovered jobs, the first
    of which has its outputs, the run ends at the first; the second,
    which has no outputs yet and would be carried out on its own, is
    never looked at. *)
Lemma skip_continues_counterexample :
  let sys := demo_system 0 in
  let args := demo_args false false false in
  let run := for_each_job sys args [demo_job; demo_job_next] demo_fs_done in
  run.1.1 = Ok Return ∧
  ¬ In (Stdout ("> Dealing with PixC annotation file " +:+ demo_job_next
                +:+ nl)) run.2 ∧
  (for_each_job sys args [demo_job_next] demo_fs_done).1.1 = Ok (Next tt) ∧
  In (Stdout ("> Dealing with PixC annotation file " +:+ demo_job_next
              +:+ nl))
    (for_each_job sys args [demo_job_next] demo_fs_done).2.
Proof.
  cbv zeta. split; [vm_compute; reflexivity|]. split.
  - intros H. vm_compute in H.
    repeat (destruct H as [H|H]; [discriminate H|]). exact H.
  - split; [vm_compute; reflexivity|]. vm_compute. left. reflexivity.
Qed.

Lemma subsample_factor_is_two_witness :
  ∃ true_gdem out_file,
    gdem_pixc demo_job_45N = Some out_file ∧
    In (CallMakePixc true_gdem (pixc_file demo_job_45N) out_file 2)
      (demo_events_prepared 0).
Proof.
  apply (proj2 (subsample_factor_is_two (demo_system 0)
                  (demo_args false false false))
           demo_job demo_fs demo_job_45N (demo_fs_prepared 0)
           (demo_events_prepared 0)).
  - vm_compute. reflexivity.
  - reflexivity.
Defined.

Lemma output_names_follow_tile_witness :
  let sys := demo_system 0 in
  let args := demo_args false false false in
  output_riverobs demo_job_45N
  = join (river_dir sys args) "rivertile_001_023_45N.nc" ∧
  output_pixcvec demo_job_45N
  = join (river_dir sys args) "pixcvec_001_023_45N.nc" ∧
  river_dir sys args = abspath sys (join "/out" "pixc") ∧
  (nogdem args = false →
   gdem_pixc demo_job_45N
   = Some (join (join "/out" "gdem") "pixel_cloud_gdem001-023_45N.nc")) ∧
  (nogdem args = true → gdem_pixc demo_job_45N = None).
Proof.
  apply (output_names_follow_tile (demo_system 0)
           (demo_args false false false) demo_job
           ["pixc"; "annot"; "001"; "023"; "45N"] "001" "023" "45N"
           demo_fs demo_job_45N (demo_fs_prepared 0)
           (demo_events_prepared 0)).
  - reflexivity.
  - reflexivity.
  - reflexivity.
  - reflexivity.
  - vm_compute. reflexivity.
Defined.

Lemma annotation_file_lines_witness :
  let sys := demo_system 0 in
  (* with the GDEM branch: four lines *)
  (let args := demo_args false false false in
   let j := demo_job_45N in
   let extracted := extract sys args j (demo_fs_prepared 0) in
   let exported := export_shapefiles sys args j extracted.1.2 in
   let text :=
     ("pixc file = " +:+ "/data/pixc_001_023_45N.nc" +:+ nl)
     +:+ ("gdem pixc file = " +:+ "/out/gdem/pixel_cloud_gdem001-023_45N.nc"
          +:+ nl)
     +:+ ("pixcvec file = " +:+ "/out/pixc/pixcvec_001_023_45N.nc" +:+ nl)
     +:+ ("pixcvec file from gdem = " +:+ "/out/gdem/pixcvec_001_023_45N.nc"
          +:+ nl) in
   finish_job sys args j (demo_fs_prepared 0)
   = (Ok tt,
      Fs (<[abspath sys (river_ann_file j) := TextFile text]>
            (files exported.1.2)) (dirs exported.1.2),
      extracted.2 ++ exported.2 ++ [WriteFile (river_ann_file j) text])) ∧
  (* without it: three lines, the second with the value None *)
  (let args := demo_args true true false in
   let j := res_job demo_resolved in
   let prepared := prepare_job sys args demo_job demo_fs in
   let extracted := extract sys args j prepared.1.2 in
   let text :=
     ("pixc file = " +:+ "/data/pixc_001_023_45N.nc" +:+ nl)
     +:+ ("gdem pixc file = " +:+ "None" +:+ nl)
     +:+ ("pixcvec file = " +:+ "/out/pixc/pixcvec_001_023_45N.nc" +:+ nl) in
   finish_job sys args j prepared.1.2
   = (Ok tt,
      Fs (<[abspath sys (river_ann_file j) := TextFile text]>
            (files extracted.1.2)) (dirs extracted.1.2),
      extracted.2 ++ [WriteFile (river_ann_file j) text])).
Proof.
  split.
  - refine (proj1 (annotation_file_lines (demo_system 0)
                     (demo_args false false false) demo_job_45N
                     (demo_fs_prepared 0) _ _ _ _ _ _)).
    + vm_compute. reflexivity.
    + vm_compute. reflexivity.
  - refine (proj1 (annotation_file_lines (demo_system 0)
                     (demo_args true true false) (res_job demo_resolved)
                     _ _ _ _ [] _ _)).
    + vm_compute. reflexivity.
    + vm_compute. reflexivity.
Defined.

(** C9 as the claim states it fails: a job can complete the extraction
    step and write no annotation at all. Here the extraction program
    exits with status 0 and [== Execution OK] is printed, then the first
    shapefile export raises: the job raises with it, and no annotation
    file is written. *)
Lemma extraction_alone_counterexample :
  let sys := demo_system_shp_fails in
  let args := demo_args true false false in
  let j := res_job demo_resolved in
  let prepared := prepare_job sys args demo_job demo_fs in
  let extracted := extract sys args j prepared.1.2 in
  let finished := finish_job sys args j prepared.1.2 in
  prepared.1.1 = Ok (Next j) ∧
  extracted.1.1 = Ok tt ∧
  In (Stdout ("== Execution OK" +:+ nl)) finished.2 ∧
  finished.1.1
  = Raise (IOError "/out/pixc/rivertile_001_023_45N_node.shp") ∧
  files finished.1.2 !! abspath sys (river_ann_file j) = None ∧
  (∀ path text, ¬ In (WriteFile path text) finished.2) ∧
  (process_job sys args demo_job demo_fs).1.1
  = Raise (IOError "/out/pixc/rivertile_001_023_45N_node.shp").
Proof.
  cbv zeta.
  split; [vm_compute; reflexivity|]. split; [vm_compute; reflexivity|].
  split; [vm_compute; tauto|]. split; [vm_compute; reflexivity|].
  split; [vm_compute; reflexivity|]. split; [|vm_compute; reflexivity].
  intros path text H. vm_compute in H.
  repeat (destruct H as [H|H]; [discriminate H|]). exact H.
Qed.

End DriverClaims.

(** ** The cloud, pixel by pixel *)

Module GridFacts.

Import Grid NumpyFacts ConverterFacts.

Lemma select_sub {T} (mask : list bool) : ∀ (l : list T) y,
  y ∈ select mask l → y ∈ l.
Proof.
  induction mask as [|c m IHm]; intros [|z l] y Hy; simpl in *;
    try by apply elem_of_nil in Hy.
  destruct c.
  - apply elem_of_cons in Hy as [->|Hy]; [left|right; eauto].
  - right. eauto.
Qed.

Lemma kept_from_ge from mask k : k ∈ kept_from from mask → (from ≤ k)%nat.
Proof.
  intros Hk. apply select_sub, elem_of_seq in Hk. lia.
Qed.

Section Select.
Context {T : Type}.

(** Entry [i] of a masked list is the entry of the list at the [i]-th
    kept position. *)
Lemma select_lookup (mask : list bool) : ∀ (xs : list T) from i,
  length xs = length mask →
  select mask xs !! i
  = match kept_from from mask !! i with
    | Some k => xs !! (k - from)%nat
    | None => None
    end.
Proof.
  intros xs from. revert xs.
  induction mask as [|b mask IH] in from |- *; intros [|x xs] i Hlen;
    simpl in *; try done.
  assert (∀ j, match kept_from (S from) mask !! j with
               | Some k => (x :: xs) !! (k - from)%nat
               | None => None
               end
               = match kept_from (S from) mask !! j with
                 | Some k => xs !! (k - S from)%nat
                 | None => None
                 end) as Hshift.
  { intros j.
    destruct (kept_from (S from) mask !! j) as [k|] eqn:Hk; [|done].
    apply list_elem_of_lookup_2, kept_from_ge in Hk.
    replace (k - from)%nat with (S (k - S from)) by lia. done. }
  unfold kept_from in *. simpl.
  destruct b.
  - destruct i as [|i]; simpl.
    + by rewrite Nat.sub_diag.
    + rewrite (IH (S from) xs i) by lia. symmetry. apply Hshift.
  - rewrite (IH (S from) xs i) by lia. symmetry. apply Hshift.
Qed.

Lemma select_length_kept (mask : list bool) : ∀ (xs : list T) from,
  length xs = length mask →
  length (select mask xs) = length (kept_from from mask).
Proof.
  unfold kept_from.
  induction mask as [|b mask IH]; intros [|x xs] from Hlen; simpl in *;
    try done.
  destruct b; simpl; rewrite (IH xs (S from)) by lia; done.
Qed.
End Select.

Lemma kept_from_lookup mask : ∀ from i k,
  kept_from from mask !! i = Some k →
  (from ≤ k < from + length mask)%nat ∧
  mask !! (k - from)%nat = Some true.
Proof.
  unfold kept_from.
  induction mask as [|b mask IH]; intros from i k Hk; simpl in *; [done|].
  assert (∀ j, select mask (seq (S from) (length mask)) !! j = Some k →
            (from ≤ k < from + S (length mask))%nat ∧
            (b :: mask) !! (k - from)%nat = Some true) as Hrest.
  { intros j Hj. apply IH in Hj as [Hr Hm]. split; [lia|].
    replace (k - from)%nat with (S (k - S from)) by lia. done. }
  destruct b.
  - destruct i as [|i]; simpl in Hk; [|by eapply Hrest].
    injection Hk as <-. split; [lia|]. by rewrite Nat.sub_diag.
  - by eapply Hrest.
Qed.

(** The kept positions come in increasing order. *)
Lemma kept_from_increasing mask : ∀ from i j k k',
  (i < j)%nat →
  kept_from from mask !! i = Some k →
  kept_from from mask !! j = Some k' →
  (k < k')%nat.
Proof.
  unfold kept_from.
  induction mask as [|b mask IH]; intros from i j k k' Hij Hk Hk';
    simpl in *; [done|].
  destruct b; [|by eapply IH].
  destruct j as [|j]; [lia|]. simpl in Hk'.
  destruct i as [|i]; simpl in Hk.
  - injection Hk as <-.
    apply list_elem_of_lookup_2 in Hk'.
    change (k' ∈ kept_from (S from) mask) in Hk'.
    apply kept_from_ge in Hk'. lia.
  - eapply (IH (S from) i j); [lia|done..].
Qed.

(** Every position that holds is kept. *)
Lemma kept_from_complete mask : ∀ from p,
  mask !! p = Some true →
  ∃ i, kept_from from mask !! i = Some (from + p)%nat.
Proof.
  unfold kept_from.
  induction mask as [|b mask IH]; intros from p Hp; simpl in *; [done|].
  destruct p as [|p]; simpl in Hp.
  - injection Hp as ->. exists 0%nat. simpl. f_equal. lia.
  - destruct (IH (S from) p Hp) as [i Hi].
    replace (from + S p)%nat with (S from + p)%nat by lia.
    destruct b; [by exists (S i)|by exists i].
Qed.

(** Cell [(a, r)] of a rectangular array sits at flat position
    [a * R + r]. *)
Lemma concat_lookup_cell {T} (R : nat) (rs : list (list T)) : ∀ a r,
  Forall (λ row, length row = R) rs → (r < R)%nat →
  concat rs !! (a * R + r)%nat
  = match rs !! a with Some row => row !! r | None => None end.
Proof.
  induction rs as [|x rs IH]; intros a r Hwf Hr; simpl.
  - by rewrite lookup_nil.
  - inversion Hwf as [|? ? Hx Hrs]; subst.
    destruct a as [|a]; simpl.
    + by rewrite lookup_app_l by lia.
    + rewrite lookup_app_r by lia.
      replace (length x + a * length x + r - length x)%nat
        with (a * length x + r)%nat by lia.
      by apply IH.
Qed.

Lemma arange_lookup n i : (i < n)%nat → arange n !! i = Some (Z.of_nat i).
Proof.
  intros Hi. unfold arange. rewrite list_lookup_fmap, lookup_seq_lt by done.
  done.
Qed.

(** Where pixel [i] of the cloud comes from: the [i]-th kept position,
    as a row and a column of the decimated grid. *)
Lemma pixel_origin d i :
  wf_decimated d →
  (i < water_count d)%nat →
  let R := ncols (dec_landtype d) in
  ∃ a r,
    (a < nrows (dec_landtype d))%nat ∧ (r < R)%nat ∧
    kept (water_mask d) !! i = Some (a * R + r)%nat ∧
    cell (dec_landtype d) a r = Some water_landtype ∧
    ∀ T (x : array2 T), wf x → shape x = shape (dec_landtype d) →
      select (concat (rows (water_mask d))) (concat (rows x)) !! i
      = cell x a r.
Proof.
  intros (Hl & _) Hi R.
  set (L := dec_landtype d) in *.
  set (cells := concat (rows (water_mask d))).
  assert (cells = map (λ c, c =? water_landtype) (concat (rows L))) as Hcells.
  { apply eq_scalar_cells. }
  assert (length cells = (nrows L * R)%nat) as Hlen.
  { rewrite Hcells, length_map. by apply concat_length_wf. }
  assert (water_count d = length (kept_from 0 cells)) as HN.
  { unfold water_count. fold L.
    rewrite <- (select_length (concat (rows L)) water_landtype
                  (concat (rows L)) eq_refl).
    rewrite <- Hcells. apply select_length_kept.
    by rewrite Hcells, length_map. }
  destruct (lookup_lt_is_Some_2 (kept_from 0 cells) i) as [k Hk]; [lia|].
  destruct (kept_from_lookup _ _ _ _ Hk) as [Hrange Htrue].
  rewrite Nat.sub_0_r in Htrue.
  assert (0 < R)%nat as HR by (destruct R; lia).
  exists (k / R)%nat, (k mod R)%nat.
  assert (k = (k / R * R + k mod R)%nat) as Hdiv.
  { rewrite Nat.mul_comm. apply Nat.div_mod_eq. }
  assert (k mod R < R)%nat as Hmod by (apply Nat.mod_upper_bound; lia).
  assert (k / R < nrows L)%nat as Hrow.
  { apply Nat.Div0.div_lt_upper_bound. lia. }
  split; [done|]. split; [done|]. split.
  { unfold kept. fold cells. by rewrite <- Hdiv. }
  assert (∀ T (x : array2 T), wf x → shape x = shape L →
            select cells (concat (rows x)) !! i
            = cell x (k / R) (k mod R)) as Hsel.
  { intros T x Hx Hs. unfold shape in Hs. injection Hs as Hn Hc.
    rewrite (select_lookup cells (concat (rows x)) 0 i).
    - rewrite Hk, Nat.sub_0_r. rewrite Hdiv at 1.
      unfold cell. apply concat_lookup_cell; [|done].
      unfold wf in Hx. by rewrite Hc in Hx.
    - rewrite Hlen, (concat_length_wf x Hx). by rewrite Hn, Hc. }
  split; [|exact Hsel].
  rewrite <- (Hsel Z L Hl eq_refl).
  rewrite (select_lookup cells (concat (rows L)) 0 i)
    by (by rewrite Hcells, length_map).
  rewrite Hk, Nat.sub_0_r.
  rewrite Hcells, list_lookup_fmap in Htrue.
  destruct (concat (rows L) !! k) as [c|]; [|done].
  simpl in Htrue. injection Htrue as Hc.
  apply Z.eqb_eq in Hc. by rewrite Hc.
Qed.

End GridFacts.

Module ConverterProps.

Import Grid NumpyFacts ConverterFacts ConverterClaims GridFacts.

(** The lengths of the per-pixel arrays, as a fact to build on. *)
Lemma per_pixel_lengths_of g donor sf :
  wf_gdem g →
  (sf ≠ 0 → ∃ pixc, make_pixc_from_gdem g donor sf = Ok pixc) ∧
  (∀ pixc, make_pixc_from_gdem g donor sf = Ok pixc →
     ∃ d, decimate g sf = Ok d ∧ per_pixel_lengths pixc (water_count d)).
Proof.
  intros Hg. split; [by apply make_pixc_ok|].
  intros pixc Hp.
  destruct (make_pixc_inv _ _ _ _ Hp) as (d & w & Hd & Hw & ->).
  exists d. split; [done|].
  destruct (decimate_wf g sf d Hg Hd) as [Hwf Hc].
  destruct (water_cells_spec g d Hwf) as (w' & Hw' & Hspec).
  { destruct Hg as (_ & _ & _ & _ & _ & _ & _ & Hct). congruence. }
  rewrite Hw in Hw'. injection Hw' as <-.
  cbn zeta in Hspec.
  destruct Hspec as (_ & _ & _ & _ & _ & L1 & L2 & L3 & L4 & L5 & L6 & L7).
  unfold per_pixel_lengths, build_pixc. cbn.
  rewrite !length_map, !zeros_plus_length. repeat split; congruence.
Qed.

(** The cloud of a successful conversion, with its decimated grids and
    water cells. *)
Lemma make_pixc_parts g donor sf pixc d :
  wf_gdem g →
  decimate g sf = Ok d →
  make_pixc_from_gdem g donor sf = Ok pixc →
  wf_decimated d ∧
  ∃ w, water_cells g d = Ok w ∧ pixc = build_pixc g w donor sf.
Proof.
  intros Hg Hd Hp.
  destruct (make_pixc_inv _ _ _ _ Hp) as (d' & w & Hd' & Hw & ->).
  rewrite Hd in Hd'. injection Hd' as <-.
  split; [by destruct (decimate_wf g sf d Hg Hd)|]. by exists w.
Qed.

(** Pixel [i] of the cloud, with the cell it comes from. *)
Lemma pixel_at g donor sf pixc d i :
  wf_gdem g →
  decimate g sf = Ok d →
  make_pixc_from_gdem g donor sf = Ok pixc →
  (i < water_count d)%nat →
  ∃ a r,
    (a < nrows (dec_landtype d))%nat ∧ (r < ncols (dec_landtype d))%nat ∧
    kept (water_mask d) !! i = Some (a * ncols (dec_landtype d) + r)%nat ∧
    azimuth_index pixc !! i = Some (Z.of_nat a) ∧
    range_index pixc !! i = Some (Z.of_nat r) ∧
    illumination_time pixc !! i = Some (Z.of_nat a) ∧
    cell (dec_landtype d) a r = Some 1 ∧
    height pixc !! i = cell (dec_elevation d) a r ∧
    latitude pixc !! i = cell (dec_lat d) a r ∧
    longitude pixc !! i = cell (dec_lon d) a r ∧
    cross_track pixc !! i = gdem_cross_track g !! r ∧
    is_Some (height pixc !! i) ∧ is_Some (cross_track pixc !! i).
Proof.
  intros Hg Hd Hp Hi.
  destruct (make_pixc_parts _ _ _ _ _ Hg Hd Hp) as (Hwf & w & Hw & ->).
  pose proof (water_cells_fields _ _ _ Hw) as Hf. cbn zeta in Hf.
  destruct Hf as (Hct & _ & _ & _ & He & Hla & Hlo & Hc & Hr & Ha).
  destruct (pixel_origin d i Hwf Hi) as (a & r & Ha' & Hr' & Hk & Hl & Hsel).
  destruct Hwf as (Wl & We & Wla & Wlo & Se & Sla & Slo).
  set (A := nrows (dec_landtype d)) in *.
  set (R := ncols (dec_landtype d)) in *.
  destruct (meshgrid_wf (arange R) (arange A)) as (Wr & _ & Sr & _).
  destruct (meshgrid_wf (gdem_cross_track g) (arange A))
    as (Wc & Wa & Sc & Sa).
  rewrite !arange_length in *. rewrite Hct in *.
  assert (cell (meshgrid (arange R) (arange A)).1 a r = Some (Z.of_nat r))
    as Cr.
  { unfold cell, meshgrid. cbn [fst rows].
    rewrite list_lookup_fmap, (arange_lookup A a Ha'). cbn.
    by apply arange_lookup. }
  assert (cell (meshgrid (gdem_cross_track g) (arange A)).2 a r
          = Some (Z.of_nat a)) as Ca.
  { unfold cell, meshgrid. cbn [snd rows].
    rewrite list_lookup_fmap, (arange_lookup A a Ha'). cbn.
    rewrite list_lookup_fmap.
    destruct (lookup_lt_is_Some_2 (gdem_cross_track g) r) as [c ->];
      [lia|done]. }
  assert (cell (meshgrid (gdem_cross_track g) (arange A)).1 a r
          = gdem_cross_track g !! r) as Cc.
  { unfold cell, meshgrid. cbn [fst rows].
    by rewrite list_lookup_fmap, (arange_lookup A a Ha'). }
  assert (is_Some (cell (dec_elevation d) a r)) as Ie.
  { unfold cell. unfold shape in Se. injection Se as Hn Hc'.
    subst A R. unfold nrows in *.
    destruct (lookup_lt_is_Some_2 (rows (dec_elevation d)) a) as [row Hrow];
      [lia|].
    rewrite Hrow. apply lookup_lt_is_Some_2.
    unfold wf in We. rewrite Forall_forall in We.
    rewrite (We row) by (by eapply list_elem_of_lookup_2, Hrow). lia. }
  exists a, r. unfold build_pixc.
  cbn [azimuth_index range_index illumination_time height latitude
       longitude cross_track].
  rewrite Ha, Hr, He, Hla, Hlo, Hc.
  rewrite (Hsel _ _ Wa Sa), (Hsel _ _ Wr Sr), (Hsel _ _ We Se),
    (Hsel _ _ Wla Sla), (Hsel _ _ Wlo Slo), (Hsel _ _ Wc Sc).
  rewrite Ca, Cr, Cc.
  split; [done|]. split; [done|]. split; [done|].
  repeat split; try done.
  apply lookup_lt_is_Some_2. lia.
Qed.


(** X1: every pixel of the cloud is a water cell of the decimated grid:
    its azimuth and range index are the row and the column of a cell
    whose landtype is 1, its height, latitude and longitude are those
    of that cell, its cross-track value that of the column, and its
    illumination time is its azimuth index. *)
Theorem pixels_are_water_cells g donor sf pixc d i :
  wf_gdem g →
  decimate g sf = Ok d →
  make_pixc_from_gdem g donor sf = Ok pixc →
  (i < water_count d)%nat →
  ∃ a r,
    azimuth_index pixc !! i = Some (Z.of_nat a) ∧
    range_index pixc !! i = Some (Z.of_nat r) ∧
    illumination_time pixc !! i = Some (Z.of_nat a) ∧
    cell (dec_landtype d) a r = Some 1 ∧
    height pixc !! i = cell (dec_elevation d) a r ∧
    latitude pixc !! i = cell (dec_lat d) a r ∧
    longitude pixc !! i = cell (dec_lon d) a r ∧
    cross_track pixc !! i = gdem_cross_track g !! r ∧
    is_Some (height pixc !! i) ∧ is_Some (cross_track pixc !! i).
Proof.
  intros Hg Hd Hp Hi.
  destruct (pixel_at g donor sf pixc d i Hg Hd Hp Hi)
    as (a & r & _ & _ & _ & H). by exists a, r.
Qed.

Lemma pixels_are_water_cells_witness :
  ∃ a r,
    azimuth_index scenario_pixc !! 1%nat = Some (Z.of_nat a) ∧
    range_index scenario_pixc !! 1%nat = Some (Z.of_nat r) ∧
    illumination_time scenario_pixc !! 1%nat = Some (Z.of_nat a) ∧
    cell (dec_landtype scenario_decimated) a r = Some 1 ∧
    height scenario_pixc !! 1%nat = cell (dec_elevation scenario_decimated) a r ∧
    latitude scenario_pixc !! 1%nat = cell (dec_lat scenario_decimated) a r ∧
    longitude scenario_pixc !! 1%nat = cell (dec_lon scenario_decimated) a r ∧
    cross_track scenario_pixc !! 1%nat = gdem_cross_track scenario_gdem !! r ∧
    is_Some (height scenario_pixc !! 1%nat) ∧
    is_Some (cross_track scenario_pixc !! 1%nat).
Proof.
  apply (pixels_are_water_cells scenario_gdem scenario_donor 2).
  - exact wf_scenario_gdem.
  - vm_compute. reflexivity.
  - vm_compute. reflexivity.
  - vm_compute. lia.
Defined.

(** A pixel position of a cloud is below the water count. *)
Lemma pixel_index_bound g donor sf pixc d i a :
  wf_gdem g →
  decimate g sf = Ok d →
  make_pixc_from_gdem g donor sf = Ok pixc →
  azimuth_index pixc !! i = Some a →
  (i < water_count d)%nat.
Proof.
  intros Hg Hd Hp Ha.
  destruct (proj2 (per_pixel_lengths_of g donor sf Hg) pixc Hp)
    as (d' & Hd' & HL).
  rewrite Hd in Hd'. injection Hd' as <-.
  destruct HL as (_ & _ & _ & _ & _ & _ & _ & _ & HL & _).
  rewrite <- HL. by eapply lookup_lt_Some.
Qed.

(** X2: the pixels of the cloud come in row-major order of the decimated
    grid: of two pixels, the later one is in a later row, or in the same
    row and a later column. No cell gives two pixels. *)
Theorem pixels_in_row_major_order g donor sf pixc i j a r a' r' :
  wf_gdem g →
  make_pixc_from_gdem g donor sf = Ok pixc →
  (i < j)%nat →
  azimuth_index pixc !! i = Some a → range_index pixc !! i = Some r →
  azimuth_index pixc !! j = Some a' → range_index pixc !! j = Some r' →
  a < a' ∨ (a = a' ∧ r < r').
Proof.
  intros Hg Hp Hij Ha Hr Ha' Hr'.
  destruct (make_pixc_inv _ _ _ _ Hp) as (d & w & Hd & _ & _).
  pose proof (pixel_index_bound _ _ _ _ _ _ _ Hg Hd Hp Ha) as Hi.
  pose proof (pixel_index_bound _ _ _ _ _ _ _ Hg Hd Hp Ha') as Hj.
  destruct (pixel_at g donor sf pixc d i Hg Hd Hp Hi)
    as (x & y & _ & Hy & Hk & Hx1 & Hy1 & _).
  destruct (pixel_at g donor sf pixc d j Hg Hd Hp Hj)
    as (x' & y' & _ & Hy' & Hk' & Hx1' & Hy1' & _).
  rewrite Ha in Hx1. rewrite Hr in Hy1.
  rewrite Ha' in Hx1'. rewrite Hr' in Hy1'.
  injection Hx1 as ->. injection Hy1 as ->.
  injection Hx1' as ->. injection Hy1' as ->.
  pose proof (kept_from_increasing _ _ _ _ _ _ Hij Hk Hk') as Hlt.
  nia.
Qed.

(** X3: every water cell of the decimated grid is a pixel of the cloud. *)
Theorem every_water_cell_is_a_pixel g donor sf pixc d a r :
  wf_gdem g →
  decimate g sf = Ok d →
  make_pixc_from_gdem g donor sf = Ok pixc →
  cell (dec_landtype d) a r = Some 1 →
  ∃ i, azimuth_index pixc !! i = Some (Z.of_nat a) ∧
       range_index pixc !! i = Some (Z.of_nat r).
Proof.
  intros Hg Hd Hp Hcell.
  destruct (decimate_wf g sf d Hg Hd) as [Hwf _].
  pose proof Hwf as (Hl & _).
  set (L := dec_landtype d) in *. set (R := ncols L).
  assert (r < R)%nat as Hr.
  { unfold cell in Hcell. destruct (rows L !! a) as [row|] eqn:Hrow; [|done].
    apply lookup_lt_Some in Hcell.
    unfold wf in Hl. rewrite Forall_forall in Hl.
    rewrite (Hl row) in Hcell by (by eapply list_elem_of_lookup_2, Hrow).
    done. }
  assert (concat (rows (water_mask d)) !! (a * R + r)%nat = Some true)
    as Htrue.
  { unfold water_mask. rewrite eq_scalar_cells, list_lookup_fmap.
    fold L. rewrite (concat_lookup_cell R (rows L) a r Hl Hr).
    unfold cell in Hcell. by rewrite Hcell. }
  destruct (kept_from_complete _ 0 _ Htrue) as [i Hi].
  assert (i < water_count d)%nat as HiN.
  { apply lookup_lt_Some in Hi.
    unfold water_count. fold L.
    rewrite <- (select_length (concat (rows L)) water_landtype
                  (concat (rows L)) eq_refl).
    rewrite (select_length_kept _ (concat (rows L)) 0)
      by (by rewrite length_map).
    unfold water_mask in Hi. by rewrite eq_scalar_cells in Hi. }
  destruct (pixel_at g donor sf pixc d i Hg Hd Hp HiN)
    as (x & y & _ & Hy & Hk & Hx1 & Hy1 & _).
  unfold kept in Hk. rewrite Hi in Hk. injection Hk as Hk.
  fold L R in Hy, Hk.
  assert (x = a ∧ y = r) as [-> ->].
  { destruct (lt_eq_lt_dec x a) as [[Hlt| ->]|Hgt]; [|lia|].
    - assert ((x + 1) * R ≤ a * R)%nat by (apply Nat.mul_le_mono_r; lia).
      lia.
    - assert ((a + 1) * R ≤ x * R)%nat by (apply Nat.mul_le_mono_r; lia).
      lia. }
  by exists i.
Qed.

(** X4: the extent the cloud declares is that of the decimated grid
    ([nr_pixels] columns, [nr_lines] rows, the rows of the input over
    the absolute factor, rounded up), every range index is below
    [nr_pixels] and every azimuth index below [nr_lines]. *)
Theorem indices_within_declared_extent g donor sf pixc :
  wf_gdem g →
  make_pixc_from_gdem g donor sf = Ok pixc →
  nr_pixels pixc = Z.of_nat (ncols (gdem_landtype g)) ∧
  nr_lines pixc
  = Z.of_nat (ceil_div (nrows (gdem_landtype g)) (Z.to_nat (Z.abs sf))) ∧
  Forall (λ r, 0 ≤ r < nr_pixels pixc) (range_index pixc) ∧
  Forall (λ a, 0 ≤ a < nr_lines pixc) (azimuth_index pixc).
Proof.
  intros Hg Hp.
  destruct (make_pixc_inv _ _ _ _ Hp) as (d & w & Hd & Hw & Hpixc).
  destruct (decimate_wf g sf d Hg Hd) as [Hwf Hc].
  pose proof (water_cells_fields _ _ _ Hw) as Hf. cbn zeta in Hf.
  destruct Hf as (_ & HA & HR & _).
  destruct (decimate_inv _ _ _ Hd) as (Hl & _).
  pose proof (slice_rows_nrows _ _ _ Hl) as Hn.
  assert (nr_pixels pixc = Z.of_nat (ncols (dec_landtype d))) as E1.
  { rewrite Hpixc. cbn. by rewrite HR. }
  assert (nr_lines pixc = Z.of_nat (nrows (dec_landtype d))) as E2.
  { rewrite Hpixc. cbn. by rewrite HA. }
  destruct (proj2 (per_pixel_lengths_of g donor sf Hg) pixc Hp)
    as (d' & Hd' & HL).
  rewrite Hd in Hd'. injection Hd' as <-.
  destruct HL as (_ & _ & _ & _ & _ & _ & _ & HLr & HLa & _).
  split; [by rewrite E1, Hc|]. split; [by rewrite E2, Hn|].
  split; apply Forall_lookup; intros i x Hx.
  - assert (i < water_count d)%nat as Hi.
    { rewrite <- HLr. by eapply lookup_lt_Some. }
    destruct (pixel_at g donor sf pixc d i Hg Hd Hp Hi)
      as (a & r & _ & Hr & _ & _ & Hr1 & _).
    rewrite Hx in Hr1. injection Hr1 as ->. rewrite E1. lia.
  - assert (i < water_count d)%nat as Hi.
    { rewrite <- HLa. by eapply lookup_lt_Some. }
    destruct (pixel_at g donor sf pixc d i Hg Hd Hp Hi)
      as (a & r & Ha & _ & _ & Ha1 & _).
    rewrite Hx in Ha1. injection Ha1 as ->. rewrite E2. lia.
Qed.

Lemma pixels_in_row_major_order_witness : 0 < 1 ∨ (0 = 1 ∧ 1 < 2).
Proof.
  apply (pixels_in_row_major_order scenario_gdem scenario_donor 2
           scenario_pixc 0 1 0 1 1 2).
  - exact wf_scenario_gdem.
  - vm_compute. reflexivity.
  - lia.
  - reflexivity.
  - reflexivity.
  - reflexivity.
  - reflexivity.
Defined.

Lemma every_water_cell_is_a_pixel_witness :
  ∃ i, azimuth_index scenario_pixc !! i = Some (Z.of_nat 1) ∧
       range_index scenario_pixc !! i = Some (Z.of_nat 2).
Proof.
  apply (every_water_cell_is_a_pixel scenario_gdem scenario_donor 2
           scenario_pixc scenario_decimated 1 2).
  - exact wf_scenario_gdem.
  - vm_compute. reflexivity.
  - vm_compute. reflexivity.
  - reflexivity.
Defined.

Lemma indices_within_declared_extent_witness :
  nr_pixels scenario_pixc = Z.of_nat (ncols (gdem_landtype scenario_gdem)) ∧
  nr_lines scenario_pixc
  = Z.of_nat (ceil_div (nrows (gdem_landtype scenario_gdem))
                (Z.to_nat (Z.abs 2))) ∧
  Forall (λ r, 0 ≤ r < nr_pixels scenario_pixc) (range_index scenario_pixc) ∧
  Forall (λ a, 0 ≤ a < nr_lines scenario_pixc) (azimuth_index scenario_pixc).
Proof.
  apply (indices_within_declared_extent scenario_gdem scenario_donor 2).
  - exact wf_scenario_gdem.
  - vm_compute. reflexivity.
Defined.



Lemma rev_lookup {T} (l : list T) i :
  (i < length l)%nat → rev l !! i = l !! (length l - 1 - i)%nat.
Proof.
  intros Hi. rewrite rev_alt.
  change (rev_append l []) with (reverse l).
  rewrite reverse_lookup by done. f_equal. lia.
Qed.

Lemma slice_rows_reversed {T} (k : Z) (a : array2 T) :
  k ≤ -1 →
  ∃ d, slice_rows k a = Ok d ∧ reversed_decimation_of (Z.to_nat (- k)) a d.
Proof.
  intros Hk. unfold slice_rows, slice_step.
  destruct (Z.eqb_spec k 0); [lia|].
  destruct (Z.ltb_spec 0 k); [lia|].
  cbn [rbind]. eexists; split; [reflexivity|].
  assert (1 ≤ Z.to_nat (- k))%nat as Hk' by lia.
  set (step := Z.to_nat (- k)) in *.
  unfold reversed_decimation_of, shape, nrows. cbn [rows ncols].
  rewrite stride_from_length, length_rev, Nat.sub_0_r by done.
  split; [done|]. intros i Hi.
  destruct (lookup_lt_is_Some_2 (stride_from step 0 (rev (rows a))) i)
    as [r Hr].
  { by rewrite stride_from_length, length_rev, Nat.sub_0_r. }
  exists r. split; [done|].
  rewrite stride_from_lookup in Hr by done. cbn [Nat.add] in Hr.
  pose proof (lookup_lt_Some _ _ _ Hr) as Hlt. rewrite length_rev in Hlt.
  by rewrite rev_lookup in Hr.
Qed.

(** X6: a negative subsample factor [-k] walks the rows from the last
    one: the decimated grids have [ceil(A / k)] rows, row [i] being row
    [A - 1 - i * k] of the grid it comes from. *)
Theorem negative_factor_walks_rows_backwards (g : gdem) (k : Z) :
  k ≤ -1 →
  ∃ d, decimate g k = Ok d ∧
    reversed_decimation_of (Z.to_nat (- k)) (gdem_landtype g)
      (dec_landtype d) ∧
    reversed_decimation_of (Z.to_nat (- k)) (gdem_elevation g)
      (dec_elevation d) ∧
    reversed_decimation_of (Z.to_nat (- k)) (gdem_latitude g) (dec_lat d) ∧
    reversed_decimation_of (Z.to_nat (- k)) (gdem_longitude g) (dec_lon d).
Proof.
  intros Hk. unfold decimate.
  destruct (slice_rows_reversed k (gdem_landtype g) Hk) as (l & -> & Hl).
  destruct (slice_rows_reversed k (gdem_elevation g) Hk) as (e & -> & He).
  destruct (slice_rows_reversed k (gdem_latitude g) Hk) as (la & -> & Hla).
  destruct (slice_rows_reversed k (gdem_longitude g) Hk) as (lo & -> & Hlo).
  cbn [rbind]. eexists; split; [reflexivity|]. by cbn.
Qed.

Lemma negative_factor_walks_rows_backwards_witness :
  ∃ d, decimate scenario_gdem (-3) = Ok d ∧
    reversed_decimation_of 3 (gdem_landtype scenario_gdem)
      (dec_landtype d) ∧
    reversed_decimation_of 3 (gdem_elevation scenario_gdem)
      (dec_elevation d) ∧
    reversed_decimation_of 3 (gdem_latitude scenario_gdem) (dec_lat d) ∧
    reversed_decimation_of 3 (gdem_longitude scenario_gdem) (dec_lon d).
Proof. apply (negative_factor_walks_rows_backwards scenario_gdem (-3)). lia. Defined.




End ConverterProps.

(** ** The driver beyond a single job *)

Module NamesFacts.

Import Path Driver Names DriverFacts.

Lemma app_cons (c : Ascii.ascii) (a b : string) :
  String c a +:+ b = String c (a +:+ b).
Proof. reflexivity. Qed.

Lemma no_char_app c a b :
  no_char c (a +:+ b) = no_char c a && no_char c b.
Proof.
  induction a as [|x a IH]; [done|].
  rewrite app_cons. cbn [no_char]. rewrite IH. by rewrite andb_assoc.
Qed.

Lemma split_on_none sep s : no_char sep s = true → split_on sep s = [s].
Proof.
  induction s as [|x s IH]; [done|]. cbn [no_char split_on].
  intros [Hx Hs]%andb_true_iff. apply negb_true_iff in Hx.
  rewrite Hx, (IH Hs). done.
Qed.

Lemma split_on_first sep a b :
  no_char sep a = true →
  split_on sep (a +:+ String sep b) = a :: split_on sep b.
Proof.
  induction a as [|x a IH]; intros Ha.
  - change (EmptyString +:+ String sep b) with (String sep b).
    cbn [split_on]. by rewrite Ascii.eqb_refl.
  - cbn [no_char] in Ha. apply andb_true_iff in Ha as [Hx Ha].
    apply negb_true_iff in Hx.
    rewrite app_cons. cbn [split_on]. rewrite Hx, (IH Ha). done.
Qed.

Lemma cut_no_slash n :
  no_char "/" n = true → cut_last_slash n = (EmptyString, n).
Proof.
  induction n as [|x n IH]; [done|]. cbn [no_char cut_last_slash].
  intros [Hx Hn]%andb_true_iff. apply negb_true_iff in Hx.
  rewrite (IH Hn). unfold slash. rewrite Hx. done.
Qed.

Lemma cut_last_slash_app a n :
  no_char "/" n = true →
  cut_last_slash (a +:+ String "/" n) = (a +:+ "/", n).
Proof.
  intros Hn. induction a as [|x a IH].
  - change (EmptyString +:+ String "/" n) with (String "/" n).
    cbn [cut_last_slash]. rewrite (cut_no_slash n Hn). done.
  - rewrite !app_cons. cbn [cut_last_slash]. rewrite IH.
    destruct (Ascii.eqb x slash); [done|].
    destruct a; done.
Qed.

(** The base name of [dir/name] is [name]. *)
Lemma basename_join dir n :
  no_char "/" n = true → basename (dir +:+ "/" +:+ n) = n.
Proof.
  intros Hn. unfold basename.
  change (dir +:+ "/" +:+ n) with (dir +:+ String "/" n).
  by rewrite cut_last_slash_app.
Qed.

Lemma word_parts s :
  word s = true →
  no_char "_" s = true ∧ no_char "." s = true ∧ no_char "/" s = true.
Proof.
  unfold word. intros [[H1 H2]%andb_true_iff H3]%andb_true_iff. done.
Qed.

Lemma append_nil_r (s : string) : s +:+ "" = s.
Proof. induction s as [|c s IH]; [done|]. by rewrite app_cons, IH. Qed.

(** No match of [".nc"] begins in [q] and ends in a following
    [".nc"]. *)
Lemma startswith_nc_app q :
  q ≠ "" → startswith ".nc" (q +:+ ".nc") = startswith ".nc" q.
Proof.
  intros Hq. destruct q as [|a [|b [|c q]]]; [done| | |].
  - rewrite app_cons. change ("" +:+ ".nc") with ".nc".
    cbn [startswith]. by destruct (Ascii.eqb _ a).
  - rewrite !app_cons. change ("" +:+ ".nc") with ".nc".
    cbn [startswith]. by destruct (Ascii.eqb _ a), (Ascii.eqb _ b).
  - reflexivity.
Qed.

Lemma replace_nc p new :
  occurs ".nc" p = false → replace ".nc" new (p +:+ ".nc") = p +:+ new.
Proof.
  unfold replace. induction p as [|c p IH]; intros Hp.
  - change ("" +:+ ".nc") with ".nc". cbn. by rewrite append_nil_r.
  - cbn [occurs] in Hp. apply orb_false_iff in Hp as [Hs Hp].
    rewrite app_cons. cbn [replace_from].
    rewrite <- app_cons, startswith_nc_app, Hs by done.
    by rewrite IH, app_cons.
Qed.

End NamesFacts.

Module DriverProps.

Import Path Driver Names DriverFacts NamesFacts.

#[local] Hint Resolve emits_ret emits_raise emits_lift emits_get emits_put
  : emits.

(** X8: a descriptor named by the convention
    [<dir>/<p>_<q>_<cycle>_<orbit>_<tile>.<ext>], its five words free of
    underscores, dots and slashes, gives back its cycle, orbit and tile,
    whatever the directory and the extension. *)
Theorem tile_identity_of_descriptor_name dir p q c o t ext :
  word p = true → word q = true → word c = true → word o = true →
  word t = true → no_char "/" ext = true →
  tile_identity (descriptor_name dir p q c o t ext) = Ok (c, o, t).
Proof.
  intros (Pu & Pd & Ps)%word_parts (Qu & Qd & Qs)%word_parts
    (Cu & Cd & Cs)%word_parts (Ou & Od & Os)%word_parts
    (Tu & Td & Ts)%word_parts He.
  set (stem := p +:+ "_" +:+ q +:+ "_" +:+ c +:+ "_" +:+ o +:+ "_" +:+ t).
  assert (descriptor_name dir p q c o t ext
          = dir +:+ "/" +:+ (stem +:+ String "." ext)) as ->.
  { unfold descriptor_name, stem. by rewrite !append_assoc. }
  unfold tile_identity, name_fields.
  rewrite basename_join.
  2:{ unfold stem.
      change (String "." ext) with ("." +:+ ext).
      rewrite !no_char_app, Ps, Qs, Cs, Os, Ts, He. done. }
  rewrite split_on_first.
  2:{ unfold stem. rewrite !no_char_app, Pd, Qd, Cd, Od, Td. done. }
  cbn [item lookup list_lookup rbind].
  unfold stem.
  change (p +:+ "_" +:+ q +:+ "_" +:+ c +:+ "_" +:+ o +:+ "_" +:+ t)
    with (p +:+ String "_" (q +:+ String "_" (c +:+ String "_"
            (o +:+ String "_" t)))).
  rewrite !split_on_first, split_on_none by done.
  reflexivity.
Qed.

Lemma tile_identity_of_descriptor_name_witness :
  tile_identity (descriptor_name "/work/in" "pixc" "annot" "001" "023" "45N"
                   "rdf")
  = Ok ("001", "023", "45N").
Proof.
  by apply (tile_identity_of_descriptor_name "/work/in" "pixc" "annot" "001"
              "023" "45N" "rdf").
Defined.

Section WithSystem.
Context (sys : system) (args : arguments).

Lemma emits_prepare_job_nogdem (P : event → Prop) f :
  nogdem args = true →
  (∀ t, P (Stdout t)) → (∀ d, P (Makedirs d)) →
  emits P (prepare_job sys args f).
Proof.
  intros Hn H1 H2. unfold prepare_job.
  apply emits_bind; [by apply emits_resolve_paths|]. intros r.
  unfold gate_and_gdem, outputs_exist, isfile, print. rewrite Hn.
  cbv beta iota. emits_walk.
Qed.

(** X9: with [--nogdem], no run of [main] calls the converter or writes
    a GDEM pixel cloud, whatever the descriptors hold. *)
Theorem nogdem_never_converts :
  nogdem args = true → emits no_converter (main sys args).
Proof.
  intros Hn. apply emits_main; [done|]. intros f.
  apply emits_process_job.
  - by apply emits_prepare_job_nogdem.
  - intros j. by apply emits_finish_job.
Qed.

Lemma emits_finish_job_noshp (P : event → Prop) j :
  noshp args = true →
  (∀ t, P (Stdout t)) → (∀ c, P (Popen c)) → (∀ p t, P (WriteFile p t)) →
  emits P (finish_job sys args j).
Proof.
  intros Hn H1 H2 H3.
  unfold finish_job, extract, export_shapefiles,
    write_annotation_file, write_file, print. rewrite Hn.
  cbn [negb]. cbv beta iota.
  repeat first
    [ apply emits_execute; solve [auto]
    | apply emits_bind; [|intros ?]
    | apply emits_emit; solve [auto]
    | solve [auto with emits]
    | match goal with
      | |- emits _ (if ?b then _ else _) => destruct b
      | |- emits _ (match ?x with _ => _ end) => destruct x
      end ].
Qed.

(** X10: with [--noshp], no run of [main] exports a shapefile. *)
Theorem noshp_never_exports :
  noshp args = true → emits no_shapefile (main sys args).
Proof.
  intros Hn. apply emits_main; [done|]. intros f.
  apply emits_process_job.
  - by apply emits_prepare_job.
  - intros j. by apply emits_finish_job_noshp.
Qed.

Lemma short_name_has_no_identity f fields :
  name_fields f = Ok fields → (length fields < 5)%nat →
  tile_identity f = Raise (IndexError "list index out of range").
Proof.
  intros Hf Hlen. unfold tile_identity, item. rewrite Hf. cbn [rbind].
  destruct (fields !! 2%nat) eqn:H2; cbn [rbind]; [|done].
  destruct (fields !! 3%nat) eqn:H3; cbn [rbind]; [|done].
  destruct (fields !! 4%nat) eqn:H4; cbn [rbind]; [|done].
  apply lookup_lt_Some in H4. lia.
Qed.

(** X11: a descriptor whose name has fewer than five underscore-separated
    fields raises [IndexError] as soon as it is read: no directory is
    made, nothing is written, and the loop stops with that error. *)
Theorem malformed_name_raises f rest s cfg fields :
  files s !! abspath sys (abspath sys f) = Some (RdfFile cfg) →
  name_fields f = Ok fields →
  (length fields < 5)%nat →
  let ev := [printed ("> Dealing with PixC annotation file " +:+ f)] in
  process_job sys args f s
  = (Raise (IndexError "list index out of range"), s, ev) ∧
  for_each_job sys args (f :: rest) s
  = (Raise (IndexError "list index out of range"), s, ev).
Proof.
  intros Hrdf Hf Hlen ev.
  assert (process_job sys args f s
          = (Raise (IndexError "list index out of range"), s, ev)) as Hjob.
  { unfold process_job, prepare_job, resolve_paths.
    rewrite (short_name_has_no_identity f fields Hf Hlen).
    unfold print, emit, read_rdf, get, ret, lift, bind.
    cbv beta iota. rewrite Hrdf. reflexivity. }
  split; [done|]. by apply for_each_job_head.
Qed.

(** X12: a descriptor without the key [l2pixc file] raises [KeyError]
    for that key (here with the output directories in place); the loop
    stops with that error. *)
Theorem missing_pixc_key_raises f rest s cfg c o t :
  files s !! abspath sys (abspath sys f) = Some (RdfFile cfg) →
  tile_identity f = Ok (c, o, t) →
  cfg !! "l2pixc file" = None →
  abspath sys (river_dir sys args) ∈ dirs s →
  abspath sys (river_dir_gdem args) ∈ dirs s →
  let ev :=
    [printed ("> Dealing with PixC annotation file " +:+ f);
     printed ("Cycle number = " +:+ c +:+ " - Orbit number = " +:+ o
              +:+ " - Tile ref = " +:+ t);
     printed ""] in
  process_job sys args f s = (Raise (KeyError "l2pixc file"), s, ev) ∧
  for_each_job sys args (f :: rest) s
  = (Raise (KeyError "l2pixc file"), s, ev).
Proof.
  intros Hrdf Hid Hkey Hd1 Hd2 ev.
  assert (process_job sys args f s
          = (Raise (KeyError "l2pixc file"), s, ev)) as Hjob.
  { subst ev. unfold process_job, prepare_job, resolve_paths. rewrite Hid.
    cbv beta iota delta [print emit read_rdf get ret lift isdir lookup_key
                         raise bind].
    rewrite Hrdf. cbv beta iota.
    rewrite (bool_decide_eq_true_2 _ Hd1). cbv beta iota.
    destruct (nogdem args); cbn [negb]; cbv beta iota.
    - rewrite Hkey. reflexivity.
    - rewrite (bool_decide_eq_true_2 _ Hd2). cbv beta iota.
      rewrite Hkey. reflexivity. }
  split; [done|]. by apply for_each_job_head.
Qed.

Lemma gate_returns_inv r s1 s' ev :
  gate_and_gdem sys args r s1 = (Ok Return, s', ev) →
  force args = false ∧
  is_Some (files s1 !! abspath sys (output_riverobs (res_job r))) ∧
  is_Some (files s1 !! abspath sys (output_pixcvec (res_job r))) ∧
  s' = s1.
Proof.
  unfold gate_and_gdem. intros H.
  assert (∀ (k : M (flow job)),
            (∀ s0 s0' ev0, k s0 ≠ (Ok Return, s0', ev0)) →
            bind (outputs_exist sys args (output_riverobs (res_job r))
                    (output_pixcvec (res_job r)))
              (λ skip : bool,
                 if skip
                 then bind (print "--> Output files already exist; EXIT")
                        (λ _, ret Return)
                 else k) s1 = (Ok Return, s', ev) →
            force args = false ∧
            is_Some (files s1 !! abspath sys (output_riverobs (res_job r))) ∧
            is_Some (files s1 !! abspath sys (output_pixcvec (res_job r))) ∧
            s' = s1) as Hgate.
  { intros k Hk H0. inv_bind H0 as skip sa Hskip.
    rewrite outputs_exist_run in Hskip. injection Hskip as <- <- <-.
    destruct (force args); cbn [negb andb] in H0; [by apply Hk in H0|].
    destruct (bool_decide_reflect
                (is_Some (files s1 !! abspath sys
                                   (output_riverobs (res_job r)))));
      cbn [andb] in H0; [|by apply Hk in H0].
    destruct (bool_decide_reflect
                (is_Some (files s1 !! abspath sys
                                   (output_pixcvec (res_job r)))));
      [|by apply Hk in H0].
    inv_bind H0 as u sb Hp. unfold print, emit in Hp.
    injection Hp as <- <- <-. by injection H0 as <- <-. }
  destruct (nogdem args).
  - refine (Hgate _ _ H). by intros s0 s0' ev0 H0.
  - refine (Hgate _ _ H). intros s0 s0' ev0 H0.
    inv_bind H0 as g sb Hkey. inv_bind H0 as u1 sc Hp.
    inv_bind H0 as u2 sd Hmk. done.
Qed.

(** X13: a job leaves [main] with a [return] only at the gate: the
    force flag is unset and both output files of the observed branch,
    named after the descriptor's tile, were there when the job began;
    the job wrote no file. *)
Theorem return_only_at_the_gate f s s' ev :
  process_job sys args f s = (Ok Return, s', ev) →
  force args = false ∧
  files s' = files s ∧
  ∃ c o t,
    tile_identity f = Ok (c, o, t) ∧
    is_Some (files s !! abspath sys
               (join (river_dir sys args)
                  ("rivertile_" +:+ tile_suffix c o t +:+ ".nc"))) ∧
    is_Some (files s !! abspath sys
               (join (river_dir sys args)
                  ("pixcvec_" +:+ tile_suffix c o t +:+ ".nc"))).
Proof.
  intros H. unfold process_job in H.
  inv_bind H as prepared sa Hprep.
  destruct prepared as [j|].
  { inv_bind H as u sb Hfin. done. }
  injection H as <- <-.
  unfold prepare_job in Hprep. inv_bind Hprep as r sb Hres.
  apply gate_returns_inv in Hprep as (Hf & H1 & H2 & ->).
  apply resolve_paths_inv in Hres as (Hid & Hfiles & l2pixc & _ & Hjob).
  cbn zeta in Hjob. rewrite Hjob in H1, H2. cbn [output_riverobs output_pixcvec] in H1, H2.
  rewrite Hfiles in H1, H2.
  split; [done|]. split; [done|]. by eexists _, _, _.
Qed.

(** X14: [execute] returns normally exactly when the child's status is
    zero; otherwise the error carries the status and the command line;
    either way every output line of the child is echoed, in order, and
    the files are as the child left them. *)
Theorem execute_raises_iff_nonzero cmd s :
  let run := execute sys cmd s in
  let child := popen sys cmd s in
  (run.1.1 = Ok tt ↔ child.1.2 = 0) ∧
  (∀ e, run.1.1 = Raise e → e = CalledProcessError child.1.2 cmd) ∧
  run.1.2 = child.2 ∧
  run.2 = Popen cmd :: map Stdout child.1.1.
Proof.
  cbv zeta. destruct (popen sys cmd s) as [[lines code] s1] eqn:Hp.
  rewrite (execute_run sys _ _ _ _ _ Hp). cbn [fst snd].
  destruct (Z.eqb_spec code 0) as [->|Hne].
  - split; [done|]. split; [done|]. done.
  - split; [split; [done|by intros ?]|]. split; [|done].
    by intros e [= <-].
Qed.

(** X15: when the one glob of the run finds no descriptor (the pattern
    is the first argument itself if that is a file, and [*.rdf] under it
    otherwise), [main] says so between its two banners, returns normally
    and leaves the file system as it was, whatever else the file system
    holds. *)
Theorem no_descriptor_no_work s :
  let input := l2pixc_annotation_file args in
  let pattern :=
    if bool_decide (is_Some (files s !! abspath sys input)) then input
    else join input "*.rdf" in
  glob sys pattern s = [] →
  main sys args s
  = (Ok tt, s,
     [printed "===== l2pixc_to_rivertile = BEGIN ====="; printed "";
      printed "> NO PixC annotation file to deal with"; printed "";
      printed ""; printed "===== l2pixc_to_rivertile = END ====="]).
Proof.
  intros input pattern Hglob. subst input pattern.
  unfold main, discover_jobs, isfile.
  cbv beta iota delta [print emit get ret bind].
  destruct (bool_decide _); by rewrite Hglob.
Qed.

(** X16: the loop over two lists of jobs is the loop over the first
    followed, when that one came to its end, by the loop over the second
    from the file system the first one left; when the first stopped, by
    an error or a [return], no job of the second is begun. *)
Theorem loop_over_concatenation l1 l2 s :
  for_each_job sys args (l1 ++ l2) s
  = match for_each_job sys args l1 s with
    | (Ok (Next _), s1, ev1) =>
        let '(r, s2, ev2) := for_each_job sys args l2 s1 in
        (r, s2, ev1 ++ ev2)
    | stopped => stopped
    end.
Proof.
  revert s. induction l1 as [|f l1 IH]; intros s.
  - cbn. by destruct (for_each_job sys args l2 s) as [[r s2] ev2].
  - cbn [app for_each_job]. unfold bind.
    destruct (process_job sys args f s) as [[[[[]|]|e] s1] ev1]; [|done|done].
    rewrite IH.
    destruct (for_each_job sys args l1 s1) as [[[[[]|]|e] s2] ev2]; [|done|done].
    destruct (for_each_job sys args l2 s2) as [[r s3] ev3].
    by rewrite app_assoc.
Qed.

(** Find the part of a run's events that holds a given one. *)
Ltac split_events H :=
  repeat match type of H with
    | _ ∈ _ ++ _ => apply elem_of_app in H as [H|H]
    | _ ∈ [] => by apply elem_of_nil in H
    | _ ∈ _ :: _ => apply elem_of_cons in H as [H|H]; [discriminate H|]
    end.

Lemma ensure_dir_inv (b : bool) p s (u : unit) s' ev :
  (if b then ret tt else makedirs sys p) s = (Ok u, s', ev) →
  b = bool_decide (abspath sys p ∈ dirs s) →
  files s' = files s ∧ abspath sys p ∈ dirs s' ∧ dirs s ⊆ dirs s' ∧
  ∀ d, Makedirs d ∈ ev → abspath sys d ∉ dirs s.
Proof.
  intros H Hb. destruct b.
  - injection H as <- <- <-. symmetry in Hb.
    apply bool_decide_eq_true in Hb.
    split; [done|]. split; [done|]. split; [done|].
    intros d Hd. by apply elem_of_nil in Hd.
  - symmetry in Hb. apply bool_decide_eq_false in Hb.
    unfold makedirs, bind, get in H.
    destruct (files s !! abspath sys p); [done|].
    unfold emit, put in H. cbn in H. injection H as <- <- <-.
    cbn [files dirs]. split; [done|]. split; [set_solver|].
    split; [set_solver|].
    intros d [[= ->]|Hd%elem_of_nil]%elem_of_cons; done.
Qed.

(** X17: once a descriptor's paths are resolved, the directory of the
    observed branch exists and, unless [--nogdem] is given, that of the
    GDEM branch; no directory is lost, no file is touched, and a
    directory that existed is not made again. *)
Theorem directories_exist_after_resolution f s r s1 ev :
  resolve_paths sys args f s = (Ok r, s1, ev) →
  abspath sys (river_dir sys args) ∈ dirs s1 ∧
  (nogdem args = false → abspath sys (river_dir_gdem args) ∈ dirs s1) ∧
  dirs s ⊆ dirs s1 ∧
  files s1 = files s ∧
  ∀ d, Makedirs d ∈ ev → abspath sys d ∉ dirs s.
Proof.
  intros H. unfold resolve_paths in H.
  inv_bind H as u1 sa Hprint.
  unfold print, emit in Hprint. injection Hprint as <- <- <-.
  inv_bind H as cfg sb Hrdf.
  unfold read_rdf, bind, get in Hrdf.
  destruct (files s !! abspath sys (abspath sys f)) as [[]|];
    try done.
  unfold ret in Hrdf. cbn in Hrdf. injection Hrdf as <- <- <-.
  inv_bind H as id sc Hid. destruct id as [[c o] t].
  unfold lift in Hid. injection Hid as Hid <- <-.
  inv_bind H as u2 sd Hp1.
  unfold print, emit in Hp1. injection Hp1 as <- <- <-.
  inv_bind H as u3 se Hp2.
  unfold print, emit in Hp2. injection Hp2 as <- <- <-.
  inv_bind H as have_dir sf Hd1.
  unfold isdir, bind, get, ret in Hd1. cbn in Hd1.
  injection Hd1 as <- <- <-.
  inv_bind H as u4 sg Hm1.
  apply ensure_dir_inv in Hm1 as (Hf1 & Hin1 & Hsub1 & Hev1); [|done].
  inv_bind H as u5 sh Hm2.
  inv_bind H as l2pixc sj Hkey.
  unfold lookup_key in Hkey.
  destruct (parameters !! "l2pixc file") as [v|] eqn:Hl; [|done].
  unfold ret in Hkey. injection Hkey as <- <- <-.
  unfold ret in H. injection H as <- <- <-.
  destruct (nogdem args); cbn [negb] in Hm2.
  - injection Hm2 as <- <- <-.
    split; [done|]. split; [done|]. split; [done|]. split; [done|].
    intros d Hd. split_events Hd. by apply Hev1.
  - inv_bind Hm2 as have_gdem si Hd2.
    unfold isdir, bind, get, ret in Hd2. cbn in Hd2.
    injection Hd2 as <- <- <-.
    apply ensure_dir_inv in Hm2 as (Hf2 & Hin2 & Hsub2 & Hev2); [|done].
    split; [set_solver|]. split; [done|]. split; [set_solver|].
    split; [congruence|].
    intros d Hd. split_events Hd; [by apply Hev1|].
    intros Hin. by apply (Hev2 d Hd), Hsub1.
Qed.

(** X18: the converter, run on files, either raises and leaves the file
    system as it was, or hands to [to_ncfile] exactly the pixel cloud
    that [make_pixc_from_gdem] builds from the GDEM file and the donor
    cloud it read, under the name and the absolute directory of
    [out_file]; the input files are only read. *)
Theorem converter_reads_two_files_and_writes_one gdem_file pixc_file out_file
    sf s :
  let '(r, s', ev) :=
    make_pixc_from_gdem_file sys gdem_file pixc_file out_file sf s in
  match r with
  | Raise _ => s' = s
  | Ok _ =>
      ∃ g donor pixc,
        files s !! abspath sys gdem_file = Some (GdemFile g) ∧
        files s !! abspath sys pixc_file = Some (PixcFile donor) ∧
        make_pixc_from_gdem g donor sf = Ok pixc ∧
        let out_name := (Path.split out_file).2 in
        let out_path := abspath sys (Path.split out_file).1 in
        ToNcfile out_name out_path pixc ∈ ev ∧
        s' = Fs (<[abspath sys (join out_path out_name) := PixcFile pixc]>
                   (files s)) (dirs s)
  end.
Proof.
  unfold make_pixc_from_gdem_file, make_pixc_from_gdem.
  cbv beta iota delta [print emit get ret bind lift read_gdem from_ncfile
                       write_file put].
  destruct (files s !! abspath sys gdem_file) as [[?|g|?|?|]|] eqn:Hg;
    try done.
  cbv beta iota delta [raise].
  destruct (gdem_water_pixels g sf) as [w|e] eqn:Hw.
  2:{ done. }
  cbv beta iota.
  destruct (files s !! abspath sys pixc_file) as [[?|?|donor|?|]|] eqn:Hp;
    try done.
  destruct (Path.split out_file) as [pth out_name] eqn:Hsplit.
  cbv beta iota. cbn [fst snd rbind].
  eexists g, donor, _. split; [done|]. split; [done|].
  split; [by rewrite Hw|].
  split; [|done]. cbn [app]. rewrite !elem_of_cons. tauto.
Qed.

(** X19: when the path of the extraction program is given neither on
    the command line nor in the environment, a prepared job raises
    [KeyError] for [RIVEROBS]: after the preparation, GDEM pixel cloud
    included, and without starting a process. *)
Theorem missing_riverobs_raises f rest s j s1 ev1 :
  riverobs_path args = None →
  environ sys !! "RIVEROBS" = None →
  prepare_job sys args f s = (Ok (Next j), s1, ev1) →
  process_job sys args f s = (Raise (KeyError "RIVEROBS"), s1, ev1) ∧
  for_each_job sys args (f :: rest) s
  = (Raise (KeyError "RIVEROBS"), s1, ev1) ∧
  Forall no_process ev1.
Proof.
  intros Hopt Henv Hprep.
  assert (process_job sys args f s = (Raise (KeyError "RIVEROBS"), s1, ev1))
    as Hjob.
  { unfold process_job. rewrite (bind_ok _ _ _ _ _ _ Hprep).
    unfold finish_job, extract, path_to_riverobs. rewrite Hopt, Henv.
    cbv beta iota delta [raise bind]. by rewrite app_nil_r. }
  split; [done|]. split; [by apply for_each_job_head|].
  pose proof (emits_prepare_job sys args no_process f) as He.
  specialize (He ltac:(done) ltac:(done) ltac:(done) ltac:(done) s).
  by rewrite Hprep in He.
Qed.

Lemma emits_execute_cmd (P : event → Prop) cmd :
  (∀ t, P (Stdout t)) → P (Popen cmd) → emits P (execute sys cmd).
Proof.
  intros H1 H2. unfold execute.
  apply emits_bind; [by apply emits_emit|intros _].
  apply emits_bind; [apply emits_get|intros s].
  destruct (popen sys cmd s) as [[lines rc] s'].
  apply emits_bind; [apply emits_put|intros _].
  apply emits_bind; [by apply emits_echo|intros _].
  emits_walk.
Qed.

(** X20: when the two outputs of a job are [stem_r.nc] and [stem_v.nc]
    and [.nc] occurs nowhere else in these names, every shapefile the
    job exports is one of [stem_r_node.shp], [stem_r_reach.shp] and
    [stem_v.shp], made from the output of the same stem. *)
Theorem shapefiles_beside_their_sources j stem_r stem_v :
  output_riverobs j = stem_r +:+ ".nc" →
  output_pixcvec j = stem_v +:+ ".nc" →
  occurs ".nc" stem_r = false →
  occurs ".nc" stem_v = false →
  emits (exports_within (shapefiles_of stem_r stem_v))
    (finish_job sys args j).
Proof.
  intros Hr Hv Hnr Hnv.
  assert (∀ c, (shp_in c, shp_out c) ∈ shapefiles_of stem_r stem_v →
               emits (exports_within (shapefiles_of stem_r stem_v))
                 (export_shp sys c)) as Hshp.
  { intros c Hc. unfold export_shp. emits_walk. }
  unfold finish_job, extract, export_shapefiles,
    write_annotation_file, write_file, print.
  rewrite Hr, Hv, !replace_nc by done.
  repeat first
    [ apply emits_execute_cmd; [by intros|done]
    | apply Hshp; cbn [shp_in shp_out]; unfold shapefiles_of;
      rewrite !elem_of_cons; tauto
    | apply emits_bind; [|intros ?]
    | apply emits_emit; solve [auto | exact I]
    | solve [auto with emits]
    | match goal with
      | |- emits _ (if ?b then _ else _) => destruct b
      | |- emits _ (match ?x with _ => _ end) => destruct x
      end ].
Qed.






Lemma emits_extract (P : event → Prop) j :
  (∀ t, P (Stdout t)) → (∀ c, P (Popen c)) →
  emits P (extract sys args j).
Proof.
  intros H1 H2. unfold extract, print.
  repeat first
    [ apply emits_execute; solve [auto]
    | apply emits_bind; [|intros ?]
    | apply emits_emit; solve [auto]
    | solve [auto with emits]
    | match goal with
      | |- emits _ (match ?x with _ => _ end) => destruct x
      end ].
Qed.

Lemma emits_export_shapefiles (P : event → Prop) j :
  (∀ t, P (Stdout t)) → (∀ c, P (PixcToShp c)) →
  emits P (export_shapefiles sys args j).
Proof.
  intros H1 H2. unfold export_shapefiles, export_shp, print. emits_walk.
Qed.

(** X22: the annotation file is the last thing a job does, and it is
    written only by a job all of whose steps succeeded: a finished job
    ends with the write of its annotation file and has made no other
    write; a job that raised, in the extraction or in an export, has
    written none. *)
Theorem annotation_is_written_last j s :
  let text :=
    written (annotation_writes (pixc_file j) (gdem_pixc j)
               (output_pixcvec j) (output_pixcvec_gdem j)) in
  let '(r, s', ev) := finish_job sys args j s in
  match r with
  | Ok _ =>
      ∃ ev0, ev = ev0 ++ [WriteFile (river_ann_file j) text] ∧
             Forall no_write ev0
  | Raise _ => Forall no_write ev
  end.
Proof.
  intros text. unfold finish_job.
  pose proof (emits_extract no_write j ltac:(done) ltac:(done) s) as Hx.
  destruct (extract sys args j s) as [[[[]|e] s1] ev1] eqn:Ex.
  2:{ by rewrite (bind_raise _ _ _ _ _ _ Ex). }
  rewrite (bind_ok _ _ _ _ _ _ Ex).
  pose proof (emits_export_shapefiles no_write j ltac:(done) ltac:(done) s1)
    as Hs.
  destruct (export_shapefiles sys args j s1) as [[[[]|e] s2] ev2] eqn:Es.
  2:{ rewrite (bind_raise _ _ _ _ _ _ Es). by apply Forall_app. }
  rewrite (bind_ok _ _ _ _ _ _ Es), write_annotation_file_run.
  cbn [fst snd] in *. exists (ev1 ++ ev2).
  split; [by rewrite app_assoc|by apply Forall_app].
Qed.

End WithSystem.

Lemma nogdem_never_converts_witness :
  emits no_converter (main (demo_system 0) (demo_args true false false)).
Proof.
  apply (nogdem_never_converts (demo_system 0) (demo_args true false false)).
  reflexivity.
Defined.

Lemma noshp_never_exports_witness :
  emits no_shapefile (main (demo_system 0) (demo_args false true false)).
Proof.
  apply (noshp_never_exports (demo_system 0) (demo_args false true false)).
  reflexivity.
Defined.

Lemma malformed_name_raises_witness :
  let sys := demo_system 0 in
  let args := demo_args false false false in
  let ev :=
    [printed ("> Dealing with PixC annotation file " +:+ demo_job_short)] in
  process_job sys args demo_job_short demo_fs_short
  = (Raise (IndexError "list index out of range"), demo_fs_short, ev) ∧
  for_each_job sys args [demo_job_short; demo_job] demo_fs_short
  = (Raise (IndexError "list index out of range"), demo_fs_short, ev).
Proof.
  apply (malformed_name_raises (demo_system 0) (demo_args false false false)
           demo_job_short [demo_job] demo_fs_short (ann_cfg demo_resolved)
           ["pixc"; "annot"; "001"]).
  - vm_compute. reflexivity.
  - reflexivity.
  - cbn. lia.
Defined.

Lemma missing_pixc_key_raises_witness :
  let sys := demo_system 0 in
  let args := demo_args false false false in
  let ev :=
    [printed ("> Dealing with PixC annotation file " +:+ demo_job);
     printed ("Cycle number = " +:+ "001" +:+ " - Orbit number = " +:+ "023"
              +:+ " - Tile ref = " +:+ "45N");
     printed ""] in
  process_job sys args demo_job demo_fs_no_pixc
  = (Raise (KeyError "l2pixc file"), demo_fs_no_pixc, ev) ∧
  for_each_job sys args [demo_job; demo_job_next] demo_fs_no_pixc
  = (Raise (KeyError "l2pixc file"), demo_fs_no_pixc, ev).
Proof.
  apply (missing_pixc_key_raises (demo_system 0)
           (demo_args false false false) demo_job [demo_job_next]
           demo_fs_no_pixc demo_cfg_no_pixc "001" "023" "45N").
  - vm_compute. reflexivity.
  - reflexivity.
  - vm_compute. reflexivity.
  - apply (bool_decide_unpack _). vm_compute. exact I.
  - apply (bool_decide_unpack _). vm_compute. exact I.
Defined.

Lemma return_only_at_the_gate_witness :
  let sys := demo_system 0 in
  let args := demo_args false false false in
  force args = false ∧
  files demo_fs_done = files demo_fs_done ∧
  ∃ c o t,
    tile_identity demo_job = Ok (c, o, t) ∧
    is_Some (files demo_fs_done !! abspath sys
               (join (river_dir sys args)
                  ("rivertile_" +:+ tile_suffix c o t +:+ ".nc"))) ∧
    is_Some (files demo_fs_done !! abspath sys
               (join (river_dir sys args)
                  ("pixcvec_" +:+ tile_suffix c o t +:+ ".nc"))).
Proof.
  apply (return_only_at_the_gate (demo_system 0)
           (demo_args false false false) demo_job demo_fs_done demo_fs_done
           (demo_events_resolved
            ++ [printed "--> Output files already exist; EXIT"])).
  vm_compute. reflexivity.
Defined.

Lemma no_descriptor_no_work_witness :
  main (demo_system 0) demo_args_elsewhere demo_fs
  = (Ok tt, demo_fs,
     [printed "===== l2pixc_to_rivertile = BEGIN ====="; printed "";
      printed "> NO PixC annotation file to deal with"; printed "";
      printed ""; printed "===== l2pixc_to_rivertile = END ====="]).
Proof.
  apply (no_descriptor_no_work (demo_system 0) demo_args_elsewhere demo_fs).
  vm_compute. reflexivity.
Defined.

Lemma directories_exist_after_resolution_witness :
  let sys := demo_system 0 in
  let args := demo_args false false false in
  let run := resolve_paths sys args demo_job demo_fs in
  abspath sys (river_dir sys args) ∈ dirs run.1.2 ∧
  (nogdem args = false → abspath sys (river_dir_gdem args) ∈ dirs run.1.2) ∧
  dirs demo_fs ⊆ dirs run.1.2 ∧
  files run.1.2 = files demo_fs ∧
  ∀ d, Makedirs d ∈ run.2 → abspath sys d ∉ dirs demo_fs.
Proof.
  apply (directories_exist_after_resolution (demo_system 0)
           (demo_args false false false) demo_job demo_fs demo_resolved).
  vm_compute. reflexivity.
Defined.

Lemma missing_riverobs_raises_witness :
  let sys := demo_system_bare in
  let args := demo_args true false false in
  let prepared := prepare_job sys args demo_job demo_fs in
  process_job sys args demo_job demo_fs
  = (Raise (KeyError "RIVEROBS"), prepared.1.2, prepared.2) ∧
  for_each_job sys args [demo_job; demo_job_next] demo_fs
  = (Raise (KeyError "RIVEROBS"), prepared.1.2, prepared.2) ∧
  Forall no_process prepared.2.
Proof.
  apply (missing_riverobs_raises demo_system_bare
           (demo_args true false false) demo_job [demo_job_next] demo_fs
           (res_job demo_resolved)).
  - reflexivity.
  - reflexivity.
  - vm_compute. reflexivity.
Defined.

Lemma shapefiles_beside_their_sources_witness :
  emits (exports_within (shapefiles_of "/out/pixc/rivertile_001_023_45N"
                           "/out/pixc/pixcvec_001_023_45N"))
    (finish_job (demo_system 0) (demo_args false false false) demo_job_45N).
Proof.
  apply (shapefiles_beside_their_sources (demo_system 0)
           (demo_args false false false) demo_job_45N
           "/out/pixc/rivertile_001_023_45N" "/out/pixc/pixcvec_001_023_45N").
  - reflexivity.
  - reflexivity.
  - reflexivity.
  - reflexivity.
Defined.

(** A run that starts the extraction: the property above is about
    commands that occur. *)
Lemma a_run_starts_the_extraction :
  In (Popen (extraction_command (demo_system 0)
               (demo_args false false false) "/opt/RiverObs" demo_job_45N))
    (main (demo_system 0) (demo_args false false false) demo_fs).2.
Proof. vm_compute. tauto. Qed.

End DriverProps.
